(** * The confetti particle system of liquid-justice ([useConfetti])

  A shallow embedding of the hook [useConfetti] (canvas life cycle, the
  per-frame driver [animate] and the emitter [fire]) and the properties the
  specification states about it.

  JavaScript numbers are kept behind the interface [JsNumber], which lists
  the operations the source applies to them.  Two instances are given:
  exact rationals ([Q], used for the arithmetic proofs) and IEEE binary64
  ([float], the numbers JavaScript really computes with, used to evaluate
  the code on concrete inputs).  Everything that is proved for an arbitrary
  [JsNumber] holds for both. *)

From Stdlib Require Import ZArith QArith Qround List Bool String Lia Lqa.
From Stdlib Require Import PrimFloat FloatOps SpecFloat Uint63.
Import ListNotations.

Set Implicit Arguments.

(* ------------------------------------------------------------------ *)
(** ** JavaScript numbers *)

Class JsNumber (num : Type) : Type := {
  lit    : Q -> num;                (* a numeric literal of the source *)
  nadd   : num -> num -> num;       (* a + b *)
  nsub   : num -> num -> num;       (* a - b *)
  nmul   : num -> num -> num;       (* a * b *)
  ndiv   : num -> num -> num;       (* a / b *)
  nrem   : num -> num -> num;       (* a % b, sign of the dividend *)
  nneg   : num -> num;              (* -a *)
  nlt    : num -> num -> bool;      (* a < b *)
  nle    : num -> num -> bool;      (* a <= b *)
  nequal    : num -> num -> bool;      (* a === b *)
  nmax   : num -> num -> num;       (* Math.max(a, b) *)
  nfloor : num -> num               (* Math.floor(a) *)
}.

Arguments lit {num _} q%_Q.

Declare Scope js_scope.
Delimit Scope js_scope with js.
Infix "+" := nadd : js_scope.
Infix "-" := nsub : js_scope.
Infix "*" := nmul : js_scope.
Infix "/" := ndiv : js_scope.
Infix "mod" := nrem : js_scope.
Notation "- a" := (nneg a) : js_scope.
Infix "<?" := nlt : js_scope.
Infix "<=?" := nle : js_scope.
Infix "=?" := nequal : js_scope.
Notation "a >? b" := (nlt b a) : js_scope.

(** The part of [Math] whose values are not computed here: the constant
    [Math.PI] and the two trigonometric functions [fire] calls. *)
Class JsMath (num : Type) : Type := {
  Math_PI  : num;
  Math_sin : num -> num;
  Math_cos : num -> num
}.

(* ------------------------------------------------------------------ *)
(** ** Exact rationals *)

Module QNumber.

(** [a % b] keeps the sign of the dividend: [a - b * trunc (a / b)]. *)
Definition Qtrunc (q : Q) : Z := Z.quot (Qnum q) (Zpos (Qden q)).

Definition rem (a b : Q) : Q := (a - b * inject_Z (Qtrunc (a / b)))%Q.

Definition ltb (a b : Q) : bool := negb (Qle_bool b a).

Definition max (a b : Q) : Q := if Qle_bool a b then b else a.

Definition floor (a : Q) : Q := inject_Z (Qfloor a).

End QNumber.

#[export] Instance Q_number : JsNumber Q := {
  lit q := q;
  nadd := Qplus;
  nsub := Qminus;
  nmul := Qmult;
  ndiv := Qdiv;
  nrem := QNumber.rem;
  nneg := Qopp;
  nlt := QNumber.ltb;
  nle := Qle_bool;
  nequal := Qeq_bool;
  nmax := QNumber.max;
  nfloor := QNumber.floor
}.

(* ------------------------------------------------------------------ *)
(** ** IEEE binary64 *)

Module Binary64.

Definition of_Z (z : Z) : float :=
  match z with
  | Z0 => PrimFloat.zero
  | Zpos _ => PrimFloat.of_uint63 (Uint63.of_Z z)
  | Zneg p => PrimFloat.opp (PrimFloat.of_uint63 (Uint63.of_Z (Zpos p)))
  end.

(** A decimal literal [n/d] is the correctly rounded quotient of the two
    integers, which is what the JavaScript parser produces as long as both
    are below 2^53. *)
Definition of_Q (q : Q) : float :=
  PrimFloat.div (of_Z (Qnum q)) (of_Z (Zpos (Qden q))).

Definition signed (s : bool) (z : Z) : Z := if s then Z.opp z else z.

(** [a % b]: exact, with the sign of the dividend. *)
Definition rem (a b : float) : float :=
  match Prim2SF a, Prim2SF b with
  | S754_nan, _ | _, S754_nan => PrimFloat.nan
  | S754_infinity _, _ => PrimFloat.nan
  | _, S754_zero _ => PrimFloat.nan
  | S754_zero _, _ => a
  | S754_finite _ _ _, S754_infinity _ => a
  | S754_finite sa ma ea, S754_finite _ mb eb =>
      let e := Z.min ea eb in
      let A := (Zpos ma * 2 ^ (ea - e))%Z in
      let B := (Zpos mb * 2 ^ (eb - e))%Z in
      let r := Z.rem A B in
      if (r =? 0)%Z then SF2Prim (S754_zero sa)
      else SF2Prim (binary_normalize prec emax (signed sa r) e false)
  end.

Definition floor (a : float) : float :=
  match Prim2SF a with
  | S754_finite s m e =>
      if (0 <=? e)%Z then a
      else of_Z (Z.div (signed s (Zpos m)) (2 ^ (- e)))
  | _ => a
  end.

Definition max (a b : float) : float :=
  if PrimFloat.is_nan a || PrimFloat.is_nan b then PrimFloat.nan
  else if PrimFloat.ltb a b then b
  else if PrimFloat.ltb b a then a
  else if PrimFloat.get_sign a then b else a.

End Binary64.

#[export] Instance binary64 : JsNumber float := {
  lit := Binary64.of_Q;
  nadd := PrimFloat.add;
  nsub := PrimFloat.sub;
  nmul := PrimFloat.mul;
  ndiv := PrimFloat.div;
  nrem := Binary64.rem;
  nneg := PrimFloat.opp;
  nlt := PrimFloat.ltb;
  nle := PrimFloat.leb;
  nequal := PrimFloat.eqb;
  nmax := Binary64.max;
  nfloor := Binary64.floor
}.

(* ------------------------------------------------------------------ *)
(** ** Data model *)

(** [interface Particle]: every field is a JavaScript number. *)
Module Particle.

Record t (num : Type) : Type := mk {
  x : num;
  y : num;
  vx : num;
  vy : num;
  rotation : num;
  rotationSpeed : num;
  scale : num;
  shape : num;
  hue : num;
  saturation : num;
  lightness : num;
  alpha : num;
  life : num;
  maxLife : num
}.

Section Assign.
Context {num : Type}.
Implicit Type p : t num.

(** The assignments [particle.f = v] the driver performs. *)
Definition set_x v p :=
  mk v (y p) (vx p) (vy p) (rotation p) (rotationSpeed p) (scale p)
     (shape p) (hue p) (saturation p) (lightness p) (alpha p) (life p)
     (maxLife p).
Definition set_y v p :=
  mk (x p) v (vx p) (vy p) (rotation p) (rotationSpeed p) (scale p)
     (shape p) (hue p) (saturation p) (lightness p) (alpha p) (life p)
     (maxLife p).
Definition set_vy v p :=
  mk (x p) (y p) (vx p) v (rotation p) (rotationSpeed p) (scale p)
     (shape p) (hue p) (saturation p) (lightness p) (alpha p) (life p)
     (maxLife p).
Definition set_rotation v p :=
  mk (x p) (y p) (vx p) (vy p) v (rotationSpeed p) (scale p)
     (shape p) (hue p) (saturation p) (lightness p) (alpha p) (life p)
     (maxLife p).
Definition set_hue v p :=
  mk (x p) (y p) (vx p) (vy p) (rotation p) (rotationSpeed p) (scale p)
     (shape p) v (saturation p) (lightness p) (alpha p) (life p)
     (maxLife p).
Definition set_alpha v p :=
  mk (x p) (y p) (vx p) (vy p) (rotation p) (rotationSpeed p) (scale p)
     (shape p) (hue p) (saturation p) (lightness p) v (life p)
     (maxLife p).
Definition set_life v p :=
  mk (x p) (y p) (vx p) (vy p) (rotation p) (rotationSpeed p) (scale p)
     (shape p) (hue p) (saturation p) (lightness p) (alpha p) v
     (maxLife p).
End Assign.

End Particle.

Inductive ShapeName : Set := circle | square | triangle.

Module Point.
Record t (num : Type) : Type := mk { x : num; y : num }.
End Point.

(** [interface ConfettiOptions]: every property is optional; [None] is an
    absent (undefined) property. *)
Module ConfettiOptions.

Record t (num : Type) : Type := mk {
  particleCount : option num;
  duration : option num;
  spread : option num;
  startVelocity : option num;
  gravity : option num;
  iridescent : option bool;
  origin : option (Point.t num);
  shapes : option (list ShapeName);
  colors : option (list string)
}.

(** The default argument [options = {}]. *)
Definition empty {num : Type} : t num :=
  mk None None None None None None None None None.

Definition set_gravity {num : Type} (g : option num) (o : t num) : t num :=
  mk (particleCount o) (duration o) (spread o) (startVelocity o) g
     (iridescent o) (origin o) (shapes o) (colors o).

End ConfettiOptions.

(** The overlay element: its identity in the document and its bitmap size. *)
Module Canvas.
Record t (num : Type) : Type := mk {
  element : nat;
  width : num;
  height : num
}.
End Canvas.

Inductive WebGLRenderingContext : Set := webgl_of (element : nat).

(** What [canvas.getContext('webgl') || canvas.getContext('experimental-webgl')]
    does inside the [try] of the mount effect: it yields a context, yields
    null, or throws. *)
Inductive WebGLOutcome : Set := GLContext | GLNull | GLThrows.

(** One draw of the filter callback, between [ctx.save()] and
    [ctx.restore()]. *)
Inductive Figure (num : Type) : Type :=
| FillArc (cx cy radius startAngle endAngle : num)
| FillRect (rx ry w h : num)
| FillPath (points : list (num * num)).

Module Sprite.
Record t (num : Type) : Type := mk {
  translate : num * num;
  rotate : num;
  globalAlpha : num;
  fillStyle : num * num * num;   (* hsl(hue, saturation%, lightness%) *)
  figure : Figure num
}.
End Sprite.

(** The browser as far as the hook touches it. *)
Module Browser.

Record t (num : Type) : Type := mk {
  innerWidth : num;
  innerHeight : num;
  (* matchMedia('(prefers-reduced-motion: reduce)').matches *)
  reducedMotion : bool;
  webgl : WebGLOutcome;
  (* whether canvas.getContext('2d') returns a context *)
  context2d : bool;
  (* the canvas elements that are children of document.body *)
  body : list nat;
  nextElement : nat;
  (* handles of the frame callbacks requested and not yet run, oldest first *)
  frameRequests : list nat;
  nextHandle : nat;
  (* the values Math.random() returns, and how many were taken *)
  randomSource : nat -> num;
  randomUsed : nat;
  console : list string;
  mediaQueries : nat;
  (* what the last pass of the driver drew *)
  painted : list (Sprite.t num)
}.

Section Assign.
Context {num : Type}.
Implicit Type b : t num.

Definition set_body v n b :=
  mk (innerWidth b) (innerHeight b) (reducedMotion b) (webgl b)
     (context2d b) v n (frameRequests b) (nextHandle b)
     (randomSource b) (randomUsed b) (console b) (mediaQueries b)
     (painted b).
Definition set_frameRequests v n b :=
  mk (innerWidth b) (innerHeight b) (reducedMotion b) (webgl b)
     (context2d b) (body b) (nextElement b) v n
     (randomSource b) (randomUsed b) (console b) (mediaQueries b)
     (painted b).
Definition set_randomUsed v b :=
  mk (innerWidth b) (innerHeight b) (reducedMotion b) (webgl b)
     (context2d b) (body b) (nextElement b) (frameRequests b)
     (nextHandle b) (randomSource b) v (console b) (mediaQueries b)
     (painted b).
Definition set_console v b :=
  mk (innerWidth b) (innerHeight b) (reducedMotion b) (webgl b)
     (context2d b) (body b) (nextElement b) (frameRequests b)
     (nextHandle b) (randomSource b) (randomUsed b) v (mediaQueries b)
     (painted b).
Definition set_mediaQueries v b :=
  mk (innerWidth b) (innerHeight b) (reducedMotion b) (webgl b)
     (context2d b) (body b) (nextElement b) (frameRequests b)
     (nextHandle b) (randomSource b) (randomUsed b) (console b) v
     (painted b).
Definition set_painted v b :=
  mk (innerWidth b) (innerHeight b) (reducedMotion b) (webgl b)
     (context2d b) (body b) (nextElement b) (frameRequests b)
     (nextHandle b) (randomSource b) (randomUsed b) (console b)
     (mediaQueries b) v.
Definition set_reducedMotion v b :=
  mk (innerWidth b) (innerHeight b) v (webgl b)
     (context2d b) (body b) (nextElement b) (frameRequests b)
     (nextHandle b) (randomSource b) (randomUsed b) (console b)
     (mediaQueries b) (painted b).
End Assign.

End Browser.

(** The refs and the state of one call of [useConfetti].  [isActive] is the
    React state as [setIsActive] last set it; the callbacks of a render see
    the value it had at that render. *)
Module Hook.

Record t (num : Type) : Type := mk {
  canvasRef : option (Canvas.t num);
  glRef : option WebGLRenderingContext;
  particlesRef : list (Particle.t num);
  rafRef : option nat;
  isActive : bool
}.

(** The first render: [useRef(null)], [useRef([])], [useState(false)]. *)
Definition initial {num : Type} : t num := mk None None [] None false.

Section Assign.
Context {num : Type}.
Implicit Type h : t num.

Definition set_canvasRef v h :=
  mk v (glRef h) (particlesRef h) (rafRef h) (isActive h).
Definition set_glRef v h :=
  mk (canvasRef h) v (particlesRef h) (rafRef h) (isActive h).
Definition set_particlesRef v h :=
  mk (canvasRef h) (glRef h) v (rafRef h) (isActive h).
Definition set_rafRef v h :=
  mk (canvasRef h) (glRef h) (particlesRef h) v (isActive h).
Definition set_isActive v h :=
  mk (canvasRef h) (glRef h) (particlesRef h) (rafRef h) v.
End Assign.

End Hook.

(** A mounted hook together with the browser it runs in. *)
Module World.
Record t (num : Type) : Type := mk {
  page : Browser.t num;
  refs : Hook.t num
}.
End World.

(* ------------------------------------------------------------------ *)
(** ** Effects

    The hook reads and writes its refs and calls browser functions; both are
    threaded through a state monad. *)

Definition State (S A : Type) : Type := S -> A * S.

Definition ret {S A : Type} (a : A) : State S A := fun s => (a, s).

Definition bind {S A B : Type} (m : State S A) (k : A -> State S B)
  : State S B :=
  fun s => let (a, s') := m s in k a s'.

Definition exec {S A : Type} (m : State S A) (s : S) : S := snd (m s).

Declare Scope state_scope.
Delimit Scope state_scope with state.
Notation "x <- m ;; k" := (bind m (fun x => k))
  (at level 61, m at next level, right associativity) : state_scope.
Notation "m ;; k" := (bind m (fun _ => k))
  (at level 61, right associativity) : state_scope.
Open Scope state_scope.

Definition truthy (handle : nat) : bool := negb (Nat.eqb handle 0).

Definition default {A : Type} (d : A) (o : option A) : A :=
  match o with Some a => a | None => d end.

Section Confetti.

Context {num : Type} {NUM : JsNumber num} {MATH : JsMath num}.

Local Open Scope js_scope.

Abbreviation Particle := (Particle.t num).
Abbreviation Canvas := (Canvas.t num).
Abbreviation Browser := (Browser.t num).
Abbreviation Hook := (Hook.t num).
Abbreviation World := (World.t num).

(** *** Browser functions *)

Definition Math_random : State Browser num :=
  fun b =>
    (Browser.randomSource b (Browser.randomUsed b),
     Browser.set_randomUsed (S (Browser.randomUsed b)) b).

Definition requestAnimationFrame : State Browser nat :=
  fun b =>
    (Browser.nextHandle b,
     Browser.set_frameRequests
       (Browser.frameRequests b ++ [Browser.nextHandle b])
       (S (Browser.nextHandle b)) b).

Definition cancelAnimationFrame (handle : nat) : State Browser unit :=
  fun b =>
    (tt,
     Browser.set_frameRequests
       (filter (fun h => negb (Nat.eqb h handle)) (Browser.frameRequests b))
       (Browser.nextHandle b) b).

Definition console_log (message : string) : State Browser unit :=
  fun b => (tt, Browser.set_console (Browser.console b ++ [message]) b).

Definition console_warn (message : string) : State Browser unit :=
  console_log message.

Definition matchMedia_reduced_motion : State Browser bool :=
  fun b =>
    (Browser.reducedMotion b,
     Browser.set_mediaQueries (S (Browser.mediaQueries b)) b).

(** [document.createElement('canvas')] followed by the assignments of
    [canvas.width] and [canvas.height]; the [style] assignments (a fixed,
    full-viewport layer that takes no pointer events) do not reach any state
    the hook reads. *)
Definition createCanvas : State Browser Canvas :=
  fun b =>
    (Canvas.mk (Browser.nextElement b) (Browser.innerWidth b)
       (Browser.innerHeight b),
     Browser.set_body (Browser.body b) (S (Browser.nextElement b)) b).

Definition appendChild (canvas : Canvas) : State Browser unit :=
  fun b =>
    (tt,
     Browser.set_body (Browser.body b ++ [Canvas.element canvas])
       (Browser.nextElement b) b).

Definition body_contains (canvas : Canvas) : State Browser bool :=
  fun b => (existsb (Nat.eqb (Canvas.element canvas)) (Browser.body b), b).

Definition removeChild (canvas : Canvas) : State Browser unit :=
  fun b =>
    (tt,
     Browser.set_body
       (filter (fun e => negb (Nat.eqb e (Canvas.element canvas)))
          (Browser.body b))
       (Browser.nextElement b) b).

Definition getContext_webgl : State Browser WebGLOutcome :=
  fun b => (Browser.webgl b, b).

Definition getContext_2d : State Browser bool :=
  fun b => (Browser.context2d b, b).

Definition clearRect : State Browser unit :=
  fun b => (tt, Browser.set_painted [] b).

Definition fill (sprite : Sprite.t num) : State Browser unit :=
  fun b => (tt, Browser.set_painted (Browser.painted b ++ [sprite]) b).

(** The callbacks requested for the coming frame, which the browser takes
    off its list before it runs them. *)
Definition take_frame_requests : State Browser (list nat) :=
  fun b =>
    (Browser.frameRequests b,
     Browser.set_frameRequests [] (Browser.nextHandle b) b).

(** *** Access to the hook's refs and to the browser from the hook *)

Definition read {A : Type} (ref : Hook -> A) : State World A :=
  fun w => (ref (World.refs w), w).

Definition write (assign : Hook -> Hook) : State World unit :=
  fun w => (tt, World.mk (World.page w) (assign (World.refs w))).

Definition browser {A : Type} (m : State Browser A) : State World A :=
  fun w =>
    let (a, b) := m (World.page w) in (a, World.mk b (World.refs w)).

(** *** The mount effect and its cleanup ([React.useEffect], lines 99-131) *)

Definition mount_effect : State World unit :=
  canvasRef <- read (@Hook.canvasRef num) ;;
  match canvasRef with
  | Some _ => ret tt
  | None =>
      canvas <- browser createCanvas ;;
      browser (appendChild canvas) ;;
      write (Hook.set_canvasRef (Some canvas)) ;;
      outcome <- browser getContext_webgl ;;
      match outcome with
      | GLContext =>
          write (Hook.set_glRef (Some (webgl_of (Canvas.element canvas))))
      | GLNull => write (Hook.set_glRef None)
      | GLThrows =>
          browser
            (console_warn "WebGL not supported, falling back to 2D canvas")
      end
  end.

Definition cleanup : State World unit :=
  canvasRef <- read (@Hook.canvasRef num) ;;
  match canvasRef with
  | Some canvas =>
      attached <- browser (body_contains canvas) ;;
      if attached then browser (removeChild canvas) else ret tt
  | None => ret tt
  end ;;
  rafRef <- read (@Hook.rafRef num) ;;
  match rafRef with
  | Some handle =>
      if truthy handle then browser (cancelAnimationFrame handle) else ret tt
  | None => ret tt
  end.

(** *** The driver ([animate], lines 134-204) *)

(** The filter callback has three parts.  First the particle is updated in
    place (lines 146-158). *)
Definition update (particle : Particle) : Particle :=
  (* Update physics *)
  let particle :=
    Particle.set_vy (Particle.vy particle + lit 0.3) particle in
  let particle :=
    Particle.set_x (Particle.x particle + Particle.vx particle) particle in
  let particle :=
    Particle.set_y (Particle.y particle + Particle.vy particle) particle in
  let particle :=
    Particle.set_rotation
      (Particle.rotation particle + Particle.rotationSpeed particle)
      particle in
  let particle :=
    Particle.set_life (Particle.life particle + lit 1) particle in
  (* Update iridescent color (rainbow shift) *)
  if Particle.life particle <? Particle.maxLife particle then
    let lifeRatio := Particle.life particle / Particle.maxLife particle in
    let particle :=
      Particle.set_hue ((Particle.hue particle + lit 2) mod lit 360)
        particle in
    Particle.set_alpha (nmax (lit 0) (lit 1 - lifeRatio)) particle
  else particle.

(** Then the callback decides whether the particle leaves the pool
    (lines 160-163). *)
Definition gone (canvas : Canvas) (particle : Particle) : bool :=
  (Particle.y particle >? Canvas.height canvas + lit 100)
  || (Particle.alpha particle <=? lit 0).

(** The particle as the callback leaves it, and the callback's result. *)
Definition tick (canvas : Canvas) (particle : Particle) : Particle * bool :=
  let particle := update particle in
  if gone canvas particle then (particle, false) else (particle, true).

(** Last, a particle that stays is drawn (lines 165-194). *)
Definition sprite (particle : Particle) : Sprite.t num :=
  let size := lit 8 * Particle.scale particle in
  Sprite.mk
    (Particle.x particle, Particle.y particle)
    (Particle.rotation particle)
    (Particle.alpha particle)
    (Particle.hue particle, Particle.saturation particle,
     Particle.lightness particle)
    (if Particle.shape particle =? lit 0 then
       FillArc (lit 0) (lit 0) (size / lit 2) (lit 0) (Math_PI * lit 2)
     else if Particle.shape particle =? lit 1 then
       FillRect (- size / lit 2) (- size / lit 2) size size
     else
       FillPath [(lit 0, - size / lit 2);
                 (size / lit 2, size / lit 2);
                 (- size / lit 2, size / lit 2)]).

(** [particlesRef.current.filter(particle => ...)]: particles are visited in
    order, each is updated, and the survivors are drawn as they are met. *)
Fixpoint filter_particles (canvas : Canvas) (particles : list Particle)
  : State Browser (list Particle) :=
  match particles with
  | [] => ret []
  | particle :: rest =>
      let (particle', keep) := tick canvas particle in
      if keep then
        fill (sprite particle') ;;
        kept <- filter_particles canvas rest ;;
        ret (particle' :: kept)
      else filter_particles canvas rest
  end.

Definition animate : State World unit :=
  canvasRef <- read (@Hook.canvasRef num) ;;
  match canvasRef with
  | None => ret tt
  | Some canvas =>
      ctx <- browser getContext_2d ;;
      if negb ctx then ret tt
      else
        browser clearRect ;;
        particles <- read (@Hook.particlesRef num) ;;
        kept <- browser (filter_particles canvas particles) ;;
        write (Hook.set_particlesRef kept) ;;
        (* Continue animation if particles exist *)
        if (0 <? List.length kept)%nat then
          handle <- browser requestAnimationFrame ;;
          write (Hook.set_rafRef (Some handle))
        else write (Hook.set_isActive false)
  end.

(** *** The emitter ([fire], lines 207-265) *)

(** The object literal of the loop body, with its calls of [Math.random] in
    the order in which the properties are evaluated. *)
Definition new_particle (centerX centerY spread startVelocity duration : num)
  (iridescent : bool) (shapes : list ShapeName) : State Browser Particle :=
  r <- Math_random ;;
  let angle := (r * spread - spread / lit 2) * (Math_PI / lit 180) in
  r <- Math_random ;;
  let velocity := r * startVelocity + startVelocity / lit 2 in
  rotation <- (r <- Math_random ;; ret (r * Math_PI * lit 2)) ;;
  rotationSpeed <- (r <- Math_random ;; ret ((r - lit 0.5) * lit 0.2)) ;;
  scale <- (r <- Math_random ;; ret (r * lit 0.5 + lit 0.75)) ;;
  shape <-
    (r <- Math_random ;;
     ret (nfloor (r * lit (inject_Z (Z.of_nat (List.length shapes)))))) ;;
  hue <-
    (if iridescent then r <- Math_random ;; ret (r * lit 360)
     else ret (lit 0)) ;;
  ret (Particle.mk
         centerX
         centerY
         (Math_sin angle * velocity)
         (- Math_cos angle * velocity)
         rotation
         rotationSpeed
         scale
         shape
         hue
         (if iridescent then lit 100 else lit 0)
         (if iridescent then lit 60 else lit 50)
         (lit 1)
         (lit 0)
         (duration / lit 16.67)).

(** [for (let i = 0; i < particleCount; i++) newParticles.push(...)].  The
    loop is bounded by [fuel]; [None] is a loop that needs more rounds than
    that. *)
Fixpoint spawn (fuel : nat) (make : State Browser Particle)
  (particleCount i : num) (newParticles : list Particle) (b : Browser)
  : option (list Particle * Browser) :=
  if i <? particleCount then
    match fuel with
    | O => None
    | S fuel' =>
        let (particle, b') := make b in
        spawn fuel' make particleCount (i + lit 1)
          (newParticles ++ [particle]) b'
    end
  else Some (newParticles, b).

(** [isActive] is the value the callback captured at the render that
    created it ([useCallback(..., [isActive, animate])]). *)
Definition fire (isActive : bool) (fuel : nat)
  (options : ConfettiOptions.t num) (w : World) : option World :=
  let particleCount :=
    default (lit 150) (ConfettiOptions.particleCount options) in
  let duration := default (lit 4000) (ConfettiOptions.duration options) in
  let spread := default (lit 60) (ConfettiOptions.spread options) in
  let startVelocity :=
    default (lit 30) (ConfettiOptions.startVelocity options) in
  let iridescent := default true (ConfettiOptions.iridescent options) in
  let origin :=
    default (Point.mk (lit 0.5) (lit 0.5)) (ConfettiOptions.origin options) in
  let shapes :=
    default [circle; square; triangle] (ConfettiOptions.shapes options) in
  match Hook.canvasRef (World.refs w) with
  | None => Some w
  | Some canvas =>
      (* Check reduced motion preference *)
      let (prefersReducedMotion, w) := browser matchMedia_reduced_motion w in
      if prefersReducedMotion then
        Some (exec
                (browser
                   (console_log
                      "Confetti disabled due to prefers-reduced-motion"))
                w)
      else
        let centerX := Canvas.width canvas * Point.x origin in
        let centerY := Canvas.height canvas * Point.y origin in
        (* Create particles *)
        match
          spawn fuel
            (new_particle centerX centerY spread startVelocity duration
               iridescent shapes)
            particleCount (lit 0) [] (World.page w)
        with
        | None => None
        | Some (newParticles, page) =>
            let w :=
              World.mk page
                (Hook.set_particlesRef
                   (Hook.particlesRef (World.refs w) ++ newParticles)
                   (World.refs w)) in
            if negb isActive then
              Some (exec
                      (write (Hook.set_isActive true) ;;
                       handle <- browser requestAnimationFrame ;;
                       write (Hook.set_rafRef (Some handle)))
                      w)
            else Some w
        end
  end.

(** *** Frames and the life of a mounted hook *)

Fixpoint callbacks (n : nat) : State World unit :=
  match n with
  | O => ret tt
  | S n' => animate ;; callbacks n'
  end.

(** One frame of the browser: the callbacks requested so far are taken off
    the list and run; every one of them is [animate]. *)
Definition run_frame : State World unit :=
  handles <- browser take_frame_requests ;;
  callbacks (List.length handles).

(** What can happen to a hook: its mount effect or its cleanup runs, [fire]
    is called through a callback that captured some [isActive], the browser
    runs a frame, or the user changes the reduced-motion preference. *)
Inductive Event : Type :=
| Mount
| Unmount
| Fire (isActive : bool) (fuel : nat) (options : ConfettiOptions.t num)
| Frame
| Preference (reduce : bool).

Definition step (e : Event) (w : World) : option World :=
  match e with
  | Mount => Some (exec mount_effect w)
  | Unmount => Some (exec cleanup w)
  | Fire isActive fuel options => fire isActive fuel options w
  | Frame => Some (exec run_frame w)
  | Preference reduce =>
      Some (World.mk (Browser.set_reducedMotion reduce (World.page w))
              (World.refs w))
  end.

Fixpoint run (events : list Event) (w : World) : option World :=
  match events with
  | [] => Some w
  | e :: rest =>
      match step e w with
      | Some w' => run rest w'
      | None => None
      end
  end.

(** A page that holds nothing yet. *)
Definition blank_page (innerWidth innerHeight : num) (reducedMotion : bool)
  (webgl : WebGLOutcome) (context2d : bool) (randomSource : nat -> num)
  : Browser :=
  Browser.mk innerWidth innerHeight reducedMotion webgl context2d
    [] 0 [] 1 randomSource 0 [] 0 [].

(** The hook at its first render, before any effect has run. *)
Definition first_render (b : Browser) : World := World.mk b Hook.initial.

(** The pool of a world, and the particle a pool entry becomes after [k]
    passes of the driver. *)
Definition pool (w : World) : list Particle := Hook.particlesRef (World.refs w).

Definition pending (w : World) : list nat :=
  Browser.frameRequests (World.page w).

Fixpoint ticks (k : nat) (particle : Particle) : Particle :=
  match k with
  | O => particle
  | S k' => update (ticks k' particle)
  end.

(** The loop body of [fire] for given options and canvas, and the particles
    it can produce. *)
Definition maker (options : ConfettiOptions.t num) (canvas : Canvas)
  : State Browser Particle :=
  let origin :=
    default (Point.mk (lit 0.5) (lit 0.5)) (ConfettiOptions.origin options) in
  new_particle
    (Canvas.width canvas * Point.x origin)
    (Canvas.height canvas * Point.y origin)
    (default (lit 60) (ConfettiOptions.spread options))
    (default (lit 30) (ConfettiOptions.startVelocity options))
    (default (lit 4000) (ConfettiOptions.duration options))
    (default true (ConfettiOptions.iridescent options))
    (default [circle; square; triangle] (ConfettiOptions.shapes options)).

Definition spawned (options : ConfettiOptions.t num) (canvas : Canvas)
  (particle : Particle) : Prop :=
  exists b : Browser, particle = fst (maker options canvas b).

(** The pool after one pass of the filter: every particle is updated by
    [tick] and those with a [true] verdict stay, in order. *)
Fixpoint survivors (canvas : Canvas) (particles : list Particle)
  : list Particle :=
  match particles with
  | [] => []
  | particle :: rest =>
      let (particle', keep) := tick canvas particle in
      if keep then particle' :: survivors canvas rest
      else survivors canvas rest
  end.

(** The states of a mounted hook that draws on a 2D context and whose [fire]
    is always the callback of the latest render, so that the [isActive] it
    captured is the current state. *)
Inductive lifecycle : World -> Prop :=
| lifecycle_mount (b : Browser) :
    Browser.context2d b = true ->
    Browser.frameRequests b = [] ->
    lifecycle (exec mount_effect (first_render b))
| lifecycle_fire (w w' : World) (fuel : nat)
    (options : ConfettiOptions.t num) :
    lifecycle w ->
    fire (Hook.isActive (World.refs w)) fuel options w = Some w' ->
    lifecycle w'
| lifecycle_frame (w : World) :
    lifecycle w -> lifecycle (exec run_frame w)
| lifecycle_preference (w : World) (reduce : bool) :
    lifecycle w ->
    lifecycle
      (World.mk (Browser.set_reducedMotion reduce (World.page w))
         (World.refs w)).

(** What holds of every [lifecycle] state: the hook has its canvas and a 2D
    context, one callback is requested while the driver is marked active,
    and an idle driver has neither a callback nor particles. *)
Definition driven (w : World) : Prop :=
  (exists canvas, Hook.canvasRef (World.refs w) = Some canvas) /\
  Browser.context2d (World.page w) = true /\
  (Hook.isActive (World.refs w) = true -> exists handle, pending w = [handle]) /\
  (Hook.isActive (World.refs w) = false -> pending w = [] /\ pool w = []).

(** Elements are numbered by [document.createElement] as it makes them, so
    that every element in the document is older than the next one to be
    made: a new element is never one that is already there. *)
Definition fresh_ids (b : Browser) : Prop :=
  forall e, In e (Browser.body b) -> (e < Browser.nextElement b)%nat.

(** How often an element occurs among the children of [document.body]. *)
Definition occurrences (e : nat) (b : Browser) : nat :=
  count_occ Nat.eq_dec (Browser.body b) e.

(** What the rest of the page (other components, other calls of
    [useConfetti] among them) may do between two steps of a hook: anything
    that makes its new elements with [createElement] and leaves the hook's
    own canvas where it is. *)
Definition others_change (w : World) (page : Browser) : Prop :=
  (Browser.nextElement (World.page w) <= Browser.nextElement page)%nat /\
  fresh_ids page /\
  forall canvas,
    Hook.canvasRef (World.refs w) = Some canvas ->
    occurrences (Canvas.element canvas) page
    = occurrences (Canvas.element canvas) (World.page w).

(** The states of one call of [useConfetti] on a page it shares: the hook
    starts at its first render on any page, goes through any events with
    any captured [isActive], and between them the rest of the page
    changes. *)
Inductive hosted : World -> Prop :=
| hosted_first (b : Browser) :
    fresh_ids b -> hosted (first_render b)
| hosted_step (w w' : World) (e : Event) :
    hosted w -> step e w = Some w' -> hosted w'
| hosted_others (w : World) (page : Browser) :
    hosted w -> others_change w page -> hosted (World.mk page (World.refs w)).

(** What holds of every [hosted] state: the canvas of [canvasRef] was made
    by [createElement] and occurs at most once in the document. *)
Definition owns_one_canvas (w : World) : Prop :=
  fresh_ids (World.page w) /\
  forall canvas,
    Hook.canvasRef (World.refs w) = Some canvas ->
    (Canvas.element canvas < Browser.nextElement (World.page w))%nat /\
    (occurrences (Canvas.element canvas) (World.page w) <= 1)%nat.

(** Whether a call of [fire] gets past its two guards. *)
Definition emits (w : World) : bool :=
  match Hook.canvasRef (World.refs w) with
  | Some _ => negb (Browser.reducedMotion (World.page w))
  | None => false
  end.

(** [k] frames in a row. *)
Fixpoint frames (k : nat) (w : World) : World :=
  match k with
  | O => w
  | S k' => frames k' (exec run_frame w)
  end.

End Confetti.

(** [Math.sin] and [Math.cos] are implementation-approximated in ECMAScript.
    Where an example has to run [fire], they are taken to be the Taylor
    polynomials below, which are exact at the angle 0 that the examples
    use; no theorem depends on this choice. *)
Definition taylor_math {num : Type} {NUM : JsNumber num} : JsMath num :=
  {| Math_PI := lit 3.141592653589793;
     Math_sin a :=
       (a - a * a * a / lit 6 + a * a * a * a * a / lit 120)%js;
     Math_cos a :=
       (lit 1 - a * a / lit 2 + a * a * a * a / lit 24)%js |}.

(* ------------------------------------------------------------------ *)
(** ** The fade of a particle, in exact arithmetic *)

(** What holds of a particle from the moment [fire] creates it (alpha 1,
    life 0) through every update: alpha is the linear fade
    [1 - life / maxLife] while [life < maxLife], and is never below it. *)
Definition fading (p : Particle.t Q) : Prop :=
  (0 <= Particle.life p)%Q /\
  (0 < Particle.alpha p)%Q /\
  (Particle.alpha p <= 1)%Q /\
  ((Particle.life p < Particle.maxLife p)%Q ->
   (Particle.alpha p == 1 - Particle.life p / Particle.maxLife p)%Q) /\
  ((0 < Particle.maxLife p)%Q ->
   (1 - Particle.life p / Particle.maxLife p <= Particle.alpha p)%Q).

(* ------------------------------------------------------------------ *)
(** ** Concrete pages used by the examples *)

Module Examples.

Section Pages.

Context {num : Type} {NUM : JsNumber num}.

(** [Math.random()] returns 0.5 (the particle leaves straight up), then 0.7
    (its speed is 36 px per frame), then 0.5 for ever. *)
Definition draws (n : nat) : num :=
  match n with
  | 1%nat => lit 0.7
  | _ => lit 0.5
  end.

(** A 1920 x 1080 window. *)
Definition desktop (reducedMotion : bool) (webgl : WebGLOutcome)
  (context2d : bool) : Browser.t num :=
  blank_page (lit 1920) (lit 1080) reducedMotion webgl context2d draws.

Definition mounted (reducedMotion : bool) (webgl : WebGLOutcome)
  (context2d : bool) : World.t num :=
  exec mount_effect (first_render (desktop reducedMotion webgl context2d)).

(** [{ particleCount: n }] and [{ particleCount: n, iridescent: false }]. *)
Definition count (n : Q) : ConfettiOptions.t num :=
  ConfettiOptions.mk (Some (lit n)) None None None None None None None None.


(** [fire(options)] from the first render's callback on a mounted hook. *)
Definition fired (options : ConfettiOptions.t num) (w : World.t num)
  : option (World.t num) :=
  fire (MATH := taylor_math) false 200 options w.

Definition after (k : nat) (w : option (World.t num)) : option (World.t num) :=
  option_map (frames (MATH := taylor_math) k) w.

(** The world a call of [fire] leaves, for a call that returns. *)
Definition result (o : option (World.t num)) (otherwise : World.t num)
  : World.t num :=
  match o with
  | Some w => w
  | None => otherwise
  end.

(** Two components that call [useConfetti] on the same page, after both
    mount effects have run. *)
Definition two_hooks : World.t num * World.t num :=
  let first :=
    exec mount_effect (first_render (desktop false GLNull true)) in
  let second :=
    exec mount_effect (first_render (World.page first)) in
  (World.mk (World.page second) (World.refs first), second).

End Pages.

End Examples.

(* ------------------------------------------------------------------ *)
(** ** The components that call the hook ([Confetti], [ConfettiButton]) *)

(** [e.currentTarget.getBoundingClientRect()]. *)
Module DOMRect.
Record t (num : Type) : Type := mk {
  left : num;
  top : num;
  width : num;
  height : num
}.
End DOMRect.

Section Callers.

Context {num : Type} {NUM : JsNumber num} {MATH : JsMath num}.

Local Open Scope js_scope.

(** [{ ...confettiOptions, origin }]: the properties of [confettiOptions]
    (none when it is undefined), with [origin] replaced. *)
Definition spread_with_origin (confettiOptions : option (ConfettiOptions.t num))
  (origin : Point.t num) : ConfettiOptions.t num :=
  let o := default ConfettiOptions.empty confettiOptions in
  ConfettiOptions.mk
    (ConfettiOptions.particleCount o) (ConfettiOptions.duration o)
    (ConfettiOptions.spread o) (ConfettiOptions.startVelocity o)
    (ConfettiOptions.gravity o) (ConfettiOptions.iridescent o)
    (Some origin) (ConfettiOptions.shapes o) (ConfettiOptions.colors o).

(** [ConfettiButton]'s [handleClick] (lines 310-325): the centre of the
    button in window fractions becomes the origin, [fire] is called, then
    the [onClick] of the props if there is one.  [isActive] is the value
    captured by the [fire] the handler holds. *)
Definition handleClick (rect : DOMRect.t num)
  (confettiOptions : option (ConfettiOptions.t num))
  (onClick : option (State (World.t num) unit))
  (isActive : bool) (fuel : nat) (w : World.t num) : option (World.t num) :=
  let x :=
    (DOMRect.left rect + DOMRect.width rect / lit 2)
    / Browser.innerWidth (World.page w) in
  let y :=
    (DOMRect.top rect + DOMRect.height rect / lit 2)
    / Browser.innerHeight (World.page w) in
  match
    fire isActive fuel (spread_with_origin confettiOptions (Point.mk x y)) w
  with
  | None => None
  | Some w' =>
      Some (match onClick with
            | Some callback => exec callback w'
            | None => w'
            end)
  end.

(** The effect of [Confetti] (lines 284-288): [if (trigger) fire(options)];
    an undefined [options] is [fire]'s default [{}]. *)
Definition Confetti_effect (trigger : bool)
  (options : option (ConfettiOptions.t num))
  (isActive : bool) (fuel : nat) (w : World.t num) : option (World.t num) :=
  if trigger then fire isActive fuel (default ConfettiOptions.empty options) w
  else Some w.

(** What React remembers of the dependencies [[trigger, fire, options]] of
    that effect from one commit to the next.  [fire] comes from
    [useCallback(..., [isActive, animate])] and [animate] from
    [useCallback(..., [])], so [fire] is a new function exactly when
    [isActive] differs from the previous render's. *)
Record Dependencies : Set := {
  seen_trigger : bool;
  seen_isActive : bool
}.

(** The first commit of [<Confetti trigger options />]: the effects run in
    the order of the hooks, the mount effect of [useConfetti] first. *)
Definition Confetti_mount (trigger : bool)
  (options : option (ConfettiOptions.t num)) (fuel : nat)
  (b : Browser.t num) : option (World.t num * Dependencies) :=
  let w := exec mount_effect (first_render b) in
  match Confetti_effect trigger options false fuel w with
  | None => None
  | Some w' => Some (w', Build_Dependencies trigger false)
  end.

(** A later commit: the render reads [isActive], and the effect runs again
    when [trigger], [fire] or [options] (a new object when [newOptions])
    differs from the previous commit's. *)
Definition Confetti_update (previous : Dependencies) (trigger : bool)
  (options : option (ConfettiOptions.t num)) (newOptions : bool)
  (fuel : nat) (w : World.t num) : option (World.t num * Dependencies) :=
  let isActive := Hook.isActive (World.refs w) in
  if negb (Bool.eqb trigger (seen_trigger previous))
     || negb (Bool.eqb isActive (seen_isActive previous))
     || newOptions
  then
    match Confetti_effect trigger options isActive fuel w with
    | None => None
    | Some w' => Some (w', Build_Dependencies trigger isActive)
    end
  else Some (w, previous).

(** The pool after [k] passes of the filter. *)
Fixpoint passes (k : nat) (canvas : Canvas.t num)
  (particles : list (Particle.t num)) : list (Particle.t num) :=
  match k with
  | O => particles
  | S k' => survivors canvas (passes k' canvas particles)
  end.

(** The handle in [rafRef] is the one callback that is requested. *)
Definition requested_is_last (w : World.t num) : Prop :=
  forall handle, pending w = [handle] ->
                 Hook.rafRef (World.refs w) = Some handle.

(** [options] with another [shapes] list, or other [colors]. *)
Definition with_shapes (shapes : option (list ShapeName))
  (o : ConfettiOptions.t num) : ConfettiOptions.t num :=
  ConfettiOptions.mk
    (ConfettiOptions.particleCount o) (ConfettiOptions.duration o)
    (ConfettiOptions.spread o) (ConfettiOptions.startVelocity o)
    (ConfettiOptions.gravity o) (ConfettiOptions.iridescent o)
    (ConfettiOptions.origin o) shapes (ConfettiOptions.colors o).

Definition with_colors (colors : option (list string))
  (o : ConfettiOptions.t num) : ConfettiOptions.t num :=
  ConfettiOptions.mk
    (ConfettiOptions.particleCount o) (ConfettiOptions.duration o)
    (ConfettiOptions.spread o) (ConfettiOptions.startVelocity o)
    (ConfettiOptions.gravity o) (ConfettiOptions.iridescent o)
    (ConfettiOptions.origin o) (ConfettiOptions.shapes o) colors.

Definition with_origin (origin : option (Point.t num))
  (o : ConfettiOptions.t num) : ConfettiOptions.t num :=
  ConfettiOptions.mk
    (ConfettiOptions.particleCount o) (ConfettiOptions.duration o)
    (ConfettiOptions.spread o) (ConfettiOptions.startVelocity o)
    (ConfettiOptions.gravity o) (ConfettiOptions.iridescent o)
    origin (ConfettiOptions.shapes o) (ConfettiOptions.colors o).

(** The world after the user has changed the reduced-motion preference. *)
Definition with_preference (reduce : bool) (w : World.t num) : World.t num :=
  World.mk (Browser.set_reducedMotion reduce (World.page w)) (World.refs w).

End Callers.

(** [Math.random()] returns a number in [[0, 1)]. *)
Definition unit_draws (b : Browser.t Q) : Prop :=
  forall n : nat,
    (0 <= Browser.randomSource b n)%Q /\ (Browser.randomSource b n < 1)%Q.

(** The largest number [Math.random()] can return on binary64,
    [1 - 2^-53], and a 1920 x 1080 page on which every draw is that
    number. *)
Definition largest_draw {num : Type} {NUM : JsNumber num} : num :=
  lit (9007199254740991 # 9007199254740992).

Definition lucky_desktop {num : Type} {NUM : JsNumber num} : Browser.t num :=
  blank_page (lit 1920) (lit 1080) false GLNull true (fun _ => largest_draw).

(* ------------------------------------------------------------------ *)
(** * Properties *)

(** ** Numbers *)

Module QFacts.

Lemma ltb_lt (a b : Q) : QNumber.ltb a b = true <-> (a < b)%Q.
Proof.
  unfold QNumber.ltb. rewrite negb_true_iff. split; intro H.
  - apply Qnot_le_lt. intro L. apply Qle_bool_iff in L. congruence.
  - destruct (Qle_bool b a) eqn:E; trivial.
    apply Qle_bool_iff in E. exfalso. exact (Qlt_not_le _ _ H E).
Qed.

Lemma ltb_ge (a b : Q) : QNumber.ltb a b = false <-> (b <= a)%Q.
Proof.
  unfold QNumber.ltb. rewrite negb_false_iff. apply Qle_bool_iff.
Qed.

Lemma max_ge_r (a b : Q) : (b <= QNumber.max a b)%Q.
Proof.
  unfold QNumber.max. destruct (Qle_bool a b) eqn:E.
  - apply Qle_refl.
  - apply Qlt_le_weak. apply ltb_lt. unfold QNumber.ltb. now rewrite E.
Qed.

Lemma max_zero_pos (b : Q) : (0 < b)%Q -> (QNumber.max 0 b == b)%Q.
Proof.
  intros Hb. unfold QNumber.max. destruct (Qle_bool 0 b) eqn:E.
  - reflexivity.
  - exfalso. apply Qlt_le_weak in Hb. apply Qle_bool_iff in Hb. congruence.
Qed.

End QFacts.

Example binary64_literals :
  PrimFloat.eqb (lit 0.3) 0x1.3333333333333p-2%float = true /\
  PrimFloat.eqb (lit 16.67) 0x1.0ab851eb851ecp+4%float = true /\
  PrimFloat.eqb (nrem (lit 361.5) (lit 360)) (lit 1.5) = true /\
  PrimFloat.eqb (nrem (lit (-7.25)) (lit 2)) (lit (-1.25)) = true /\
  PrimFloat.eqb (nfloor (lit 2.75)) (lit 2) = true /\
  PrimFloat.eqb (nfloor (lit (-2.25))) (lit (-3)) = true.
Proof. repeat split; vm_compute; reflexivity. Qed.

(** ** The driver and the emitter, for any numbers *)

Section Facts.

Context {num : Type} {NUM : JsNumber num} {MATH : JsMath num}.

Local Open Scope js_scope.

Implicit Type p : Particle.t num.
Implicit Type w : World.t num.
Implicit Type b : Browser.t num.
Implicit Type c : Canvas.t num.

(** *** One update of one particle *)

Lemma update_physics p :
  Particle.vy (update p) = Particle.vy p + lit 0.3 /\
  Particle.x (update p) = Particle.x p + Particle.vx p /\
  Particle.y (update p) = Particle.y p + Particle.vy (update p) /\
  Particle.rotation (update p)
  = Particle.rotation p + Particle.rotationSpeed p /\
  Particle.life (update p) = Particle.life p + lit 1.
Proof.
  unfold update; cbn.
  destruct (Particle.life p + lit 1 <? Particle.maxLife p); cbn;
    repeat split.
Qed.

Lemma update_fixed p :
  Particle.vx (update p) = Particle.vx p /\
  Particle.rotationSpeed (update p) = Particle.rotationSpeed p /\
  Particle.scale (update p) = Particle.scale p /\
  Particle.shape (update p) = Particle.shape p /\
  Particle.saturation (update p) = Particle.saturation p /\
  Particle.lightness (update p) = Particle.lightness p /\
  Particle.maxLife (update p) = Particle.maxLife p.
Proof.
  unfold update; cbn.
  destruct (Particle.life p + lit 1 <? Particle.maxLife p); cbn;
    repeat split.
Qed.

Lemma update_color p :
  Particle.hue (update p)
  = (if Particle.life p + lit 1 <? Particle.maxLife p
     then (Particle.hue p + lit 2) mod lit 360
     else Particle.hue p) /\
  Particle.alpha (update p)
  = (if Particle.life p + lit 1 <? Particle.maxLife p
     then nmax (lit 0)
            (lit 1 - (Particle.life p + lit 1) / Particle.maxLife p)
     else Particle.alpha p).
Proof.
  unfold update; cbn.
  destruct (Particle.life p + lit 1 <? Particle.maxLife p); cbn; split;
    reflexivity.
Qed.

Lemma ticks_fixed (k : nat) p :
  Particle.saturation (ticks k p) = Particle.saturation p /\
  Particle.lightness (ticks k p) = Particle.lightness p /\
  Particle.maxLife (ticks k p) = Particle.maxLife p.
Proof.
  induction k as [|k IH]; cbn [ticks].
  - repeat split.
  - destruct IH as (Hs & Hl & Hm).
    destruct (update_fixed (ticks k p)) as (_ & _ & _ & _ & Es & El & Em).
    rewrite Es, El, Em. auto.
Qed.

Lemma tick_update c p : fst (tick c p) = update p.
Proof. unfold tick. destruct (gone c (update p)); reflexivity. Qed.

Lemma tick_verdict c p : snd (tick c p) = negb (gone c (update p)).
Proof. unfold tick. destruct (gone c (update p)); reflexivity. Qed.

(** *** One pass over the pool *)

Lemma survivors_in c (ps : list (Particle.t num)) (q : Particle.t num) :
  In q (survivors c ps) <->
  exists p, In p ps /\ q = update p /\ gone c (update p) = false.
Proof.
  induction ps as [|p ps IH]; cbn [survivors].
  - split; [intros [] | intros (p & [] & _)].
  - unfold tick. destruct (gone c (update p)) eqn:G.
    + rewrite IH. split.
      * intros (p' & Hin & Hq & Hg). exists p'. cbn. auto.
      * intros (p' & [<- | Hin] & Hq & Hg); [congruence|].
        exists p'. auto.
    + cbn [In]. rewrite IH. split.
      * intros [<- | (p' & Hin & Hq & Hg)].
        -- exists p. cbn. auto.
        -- exists p'. cbn. auto.
      * intros (p' & [<- | Hin] & Hq & Hg); [now left|].
        right. exists p'. auto.
Qed.

Lemma filter_particles_spec c (ps : list (Particle.t num)) b :
  filter_particles c ps b
  = (survivors c ps,
     Browser.set_painted
       (Browser.painted b ++ map sprite (survivors c ps)) b).
Proof.
  revert b. induction ps as [|p ps IH]; intro b.
  - cbn. rewrite app_nil_r. destruct b; reflexivity.
  - cbn [filter_particles survivors]. destruct (tick c p) as [p' keep].
    destruct keep.
    + unfold bind, fill. rewrite IH. cbn. unfold ret.
      rewrite <- app_assoc. reflexivity.
    + apply IH.
Qed.

(** *** [animate] *)

Lemma animate_without_canvas w :
  Hook.canvasRef (World.refs w) = None -> exec animate w = w.
Proof.
  destruct w as [b h]. cbn. intro E.
  unfold exec, animate, bind, read. cbn. rewrite E. reflexivity.
Qed.

Lemma animate_without_context w :
  Browser.context2d (World.page w) = false -> exec animate w = w.
Proof.
  destruct w as [b h]. cbn. intro E.
  unfold exec, animate, bind, read, browser, getContext_2d. cbn.
  destruct (Hook.canvasRef h); [|reflexivity].
  cbn. rewrite E. reflexivity.
Qed.

Lemma animate_pass w c :
  Hook.canvasRef (World.refs w) = Some c ->
  Browser.context2d (World.page w) = true ->
  let kept := survivors c (pool w) in
  pool (exec animate w) = kept /\
  pending (exec animate w)
  = (match kept with
     | [] => pending w
     | _ :: _ => pending w ++ [Browser.nextHandle (World.page w)]
     end) /\
  Hook.isActive (World.refs (exec animate w))
  = (match kept with
     | [] => false
     | _ :: _ => Hook.isActive (World.refs w)
     end) /\
  Browser.painted (World.page (exec animate w)) = map sprite kept /\
  Hook.canvasRef (World.refs (exec animate w)) = Some c /\
  Browser.context2d (World.page (exec animate w)) = true /\
  Browser.body (World.page (exec animate w)) = Browser.body (World.page w).
Proof.
  destruct w as [b h]. unfold pool, pending. cbn. intros Ec Ex.
  unfold exec, animate, bind, read, write, browser, getContext_2d, clearRect.
  cbn. rewrite Ec. cbn. rewrite Ex. cbn. rewrite filter_particles_spec. cbn.
  destruct (survivors c (Hook.particlesRef h)) as [|q kept]; cbn;
    repeat split; assumption.
Qed.

(** *** [fire] *)

Lemma new_particle_page cx cy spread velocity duration
  (iridescent : bool) (shapes : list ShapeName) b :
  exists n,
    snd (new_particle cx cy spread velocity duration iridescent shapes b)
    = Browser.set_randomUsed n b.
Proof.
  destruct iridescent; eexists; cbn; reflexivity.
Qed.

Lemma new_particle_start cx cy spread velocity duration
  (iridescent : bool) (shapes : list ShapeName) b :
  let p :=
    fst (new_particle cx cy spread velocity duration iridescent shapes b) in
  Particle.x p = cx /\ Particle.y p = cy /\
  Particle.alpha p = lit 1 /\ Particle.life p = lit 0 /\
  Particle.maxLife p = duration / lit 16.67 /\
  Particle.saturation p = (if iridescent then lit 100 else lit 0) /\
  Particle.lightness p = (if iridescent then lit 60 else lit 50) /\
  (iridescent = false -> Particle.hue p = lit 0).
Proof.
  destruct iridescent; cbn; repeat split; intros; congruence.
Qed.

Lemma set_randomUsed_twice (n m : nat) b :
  Browser.set_randomUsed n (Browser.set_randomUsed m b)
  = Browser.set_randomUsed n b.
Proof. reflexivity. Qed.

Lemma spawn_spec (make : State (Browser.t num) (Particle.t num))
  (P : Particle.t num -> Prop) :
  (forall b, exists n, snd (make b) = Browser.set_randomUsed n b) ->
  (forall b, P (fst (make b))) ->
  forall (fuel : nat) (count i : num) (acc out : list (Particle.t num)) b b',
    spawn fuel make count i acc b = Some (out, b') ->
    exists batch n,
      out = acc ++ batch /\ Forall P batch /\
      b' = Browser.set_randomUsed n b.
Proof.
  intros Hpage HP. induction fuel as [|fuel IH]; intros count i acc out b b'.
  - cbn. destruct (i <? count); [discriminate|].
    intros [= <- <-]. exists [], (Browser.randomUsed b).
    rewrite app_nil_r. repeat split; [constructor | now destruct b].
  - cbn. destruct (i <? count).
    + destruct (make b) as [p b1] eqn:Em. intro Hs.
      apply IH in Hs. destruct Hs as (batch & n & -> & HF & ->).
      destruct (Hpage b) as (m & Eb). rewrite Em in Eb. cbn in Eb. subst b1.
      exists (p :: batch), n. rewrite <- app_assoc. cbn.
      repeat split.
      constructor; [|assumption].
      specialize (HP b). now rewrite Em in HP.
    + intros [= <- <-]. exists [], (Browser.randomUsed b).
      rewrite app_nil_r. repeat split; [constructor | now destruct b].
Qed.

Lemma fire_without_canvas (isActive : bool) (fuel : nat)
  (options : ConfettiOptions.t num) w :
  Hook.canvasRef (World.refs w) = None ->
  fire isActive fuel options w = Some w.
Proof.
  intro E. unfold fire. rewrite E. reflexivity.
Qed.

Lemma fire_reduced_motion (isActive : bool) (fuel : nat)
  (options : ConfettiOptions.t num) w c :
  Hook.canvasRef (World.refs w) = Some c ->
  Browser.reducedMotion (World.page w) = true ->
  fire isActive fuel options w
  = Some
      (World.mk
         (Browser.set_console
            (Browser.console (World.page w)
             ++ ["Confetti disabled due to prefers-reduced-motion"%string])
            (Browser.set_mediaQueries
               (S (Browser.mediaQueries (World.page w))) (World.page w)))
         (World.refs w)).
Proof.
  intros Ec Er. unfold fire. rewrite Ec.
  unfold browser, matchMedia_reduced_motion. rewrite Er. reflexivity.
Qed.

Lemma fire_spawns (isActive : bool) (fuel : nat)
  (options : ConfettiOptions.t num) w w' c :
  Hook.canvasRef (World.refs w) = Some c ->
  Browser.reducedMotion (World.page w) = false ->
  fire isActive fuel options w = Some w' ->
  exists batch,
    pool w' = pool w ++ batch /\
    Forall (spawned options c) batch /\
    pending w'
    = (if isActive then pending w
       else pending w ++ [Browser.nextHandle (World.page w)]) /\
    Hook.isActive (World.refs w')
    = (if isActive then Hook.isActive (World.refs w) else true) /\
    Hook.canvasRef (World.refs w') = Some c /\
    Browser.context2d (World.page w')
    = Browser.context2d (World.page w) /\
    Browser.body (World.page w') = Browser.body (World.page w) /\
    Browser.reducedMotion (World.page w') = false.
Proof.
  intros Ec Er Hf. unfold fire in Hf. rewrite Ec in Hf.
  unfold browser, matchMedia_reduced_motion in Hf. rewrite Er in Hf.
  cbn [World.page World.refs] in Hf.
  fold (maker options c) in Hf.
  destruct (spawn _ _ _ _ _ _) as [[batch page]|] eqn:Es; [|discriminate].
  apply spawn_spec with (P := spawned options c) in Es.
  - destruct Es as (batch' & n & -> & HF & ->). cbn [app] in Hf.
    exists batch'. destruct w as [b h]. unfold pool, pending.
    destruct isActive; cbn in Hf; injection Hf as <-; cbn;
      repeat split; auto.
  - intro b0. apply new_particle_page.
  - intro b0. exists b0. reflexivity.
Qed.

(** *** Frames *)

Lemma exec_bind {S A B : Type} (m : State S A) (k : A -> State S B) (s : S) :
  exec (bind m k) s = exec (k (fst (m s))) (snd (m s)).
Proof. unfold exec, bind. destruct (m s). reflexivity. Qed.

Lemma run_frame_idle w : pending w = [] -> exec run_frame w = w.
Proof.
  destruct w as [b h]. unfold pending. cbn. intro E.
  unfold run_frame, exec, bind, browser, take_frame_requests. cbn.
  rewrite E. cbn. destruct b; cbn in *; subst; reflexivity.
Qed.

Lemma run_frame_one w (handle : nat) :
  pending w = [handle] ->
  exec run_frame w
  = exec animate
      (World.mk
         (Browser.set_frameRequests [] (Browser.nextHandle (World.page w))
            (World.page w))
         (World.refs w)).
Proof.
  destruct w as [b h]. unfold pending. cbn. intro E.
  unfold run_frame. rewrite exec_bind.
  unfold browser, take_frame_requests. cbn -[animate callbacks].
  rewrite E. cbn [List.length callbacks]. rewrite exec_bind. reflexivity.
Qed.

Lemma animate_keeps_canvas w :
  Browser.body (World.page (exec animate w)) = Browser.body (World.page w) /\
  Hook.canvasRef (World.refs (exec animate w)) = Hook.canvasRef (World.refs w).
Proof.
  destruct (Hook.canvasRef (World.refs w)) as [c|] eqn:Ec.
  - destruct (Browser.context2d (World.page w)) eqn:Ex.
    + destruct (animate_pass w Ec Ex) as (_ & _ & _ & _ & Hc & _ & Hb).
      now rewrite Hc, Hb.
    + rewrite (animate_without_context w Ex). now rewrite Ec.
  - rewrite (animate_without_canvas w Ec). now rewrite Ec.
Qed.

Lemma callbacks_keep_canvas (n : nat) w :
  Browser.body (World.page (exec (callbacks n) w))
  = Browser.body (World.page w) /\
  Hook.canvasRef (World.refs (exec (callbacks n) w))
  = Hook.canvasRef (World.refs w).
Proof.
  revert w. induction n as [|n IH]; intro w; cbn [callbacks].
  - split; reflexivity.
  - rewrite exec_bind. fold (exec animate w).
    destruct (IH (exec animate w)) as (Hb & Hc).
    destruct (animate_keeps_canvas w) as (Hb' & Hc').
    rewrite Hb, Hc, Hb', Hc'. split; reflexivity.
Qed.

Lemma run_frame_keeps_canvas w :
  Browser.body (World.page (exec run_frame w)) = Browser.body (World.page w) /\
  Hook.canvasRef (World.refs (exec run_frame w))
  = Hook.canvasRef (World.refs w).
Proof.
  unfold run_frame. rewrite exec_bind.
  match goal with
  | |- context [exec (callbacks ?n) ?w0] =>
      destruct (callbacks_keep_canvas n w0) as (Hb & Hc)
  end.
  rewrite Hb, Hc. destruct w as [b h]. split; reflexivity.
Qed.

Lemma fire_keeps_canvas (isActive : bool) (fuel : nat)
  (options : ConfettiOptions.t num) w w' :
  fire isActive fuel options w = Some w' ->
  Browser.body (World.page w') = Browser.body (World.page w) /\
  Hook.canvasRef (World.refs w') = Hook.canvasRef (World.refs w).
Proof.
  intro Hf.
  destruct (Hook.canvasRef (World.refs w)) as [c|] eqn:Ec.
  - destruct (Browser.reducedMotion (World.page w)) eqn:Er.
    + rewrite (fire_reduced_motion _ _ _ w Ec Er) in Hf.
      injection Hf as <-. cbn. now rewrite Ec.
    + destruct (fire_spawns _ _ _ w Ec Er Hf)
        as (batch & _ & _ & _ & _ & Hc & _ & Hb & _).
      now rewrite Hc, Hb.
  - rewrite (fire_without_canvas _ _ _ w Ec) in Hf.
    injection Hf as <-. now rewrite Ec.
Qed.

(** *** The mount effect and its cleanup *)

Lemma mount_effect_first b :
  let w := exec mount_effect (first_render b) in
  Hook.canvasRef (World.refs w)
  = Some (Canvas.mk (Browser.nextElement b) (Browser.innerWidth b)
            (Browser.innerHeight b)) /\
  Browser.body (World.page w) = Browser.body b ++ [Browser.nextElement b] /\
  Browser.context2d (World.page w) = Browser.context2d b /\
  pending w = pending (first_render b) /\
  pool w = [] /\
  Hook.isActive (World.refs w) = false.
Proof.
  destruct b as [iw ih rm gl cx bd ne fr nh rs ru co mq pa].
  destruct gl; cbn; repeat split.
Qed.

Lemma mount_effect_again w c :
  Hook.canvasRef (World.refs w) = Some c -> exec mount_effect w = w.
Proof.
  destruct w as [b h]. cbn. intro E.
  unfold exec, mount_effect, bind, read. cbn. rewrite E. reflexivity.
Qed.

Lemma cleanup_canvas w :
  Hook.canvasRef (World.refs (exec cleanup w)) = Hook.canvasRef (World.refs w) /\
  Browser.body (World.page (exec cleanup w))
  = (match Hook.canvasRef (World.refs w) with
     | Some c =>
         filter (fun e => negb (Nat.eqb e (Canvas.element c)))
           (Browser.body (World.page w))
     | None => Browser.body (World.page w)
     end).
Proof.
  destruct w as [b h]. destruct h as [cr gr ps rr ia].
  unfold exec, cleanup, bind, read, browser, body_contains, removeChild,
    cancelAnimationFrame. cbn.
  destruct cr as [c|]; cbn.
  - destruct (existsb (Nat.eqb (Canvas.element c)) (Browser.body b)) eqn:Ex;
      cbn.
    + destruct rr as [handle|]; cbn; [destruct (truthy handle)|]; cbn;
        split; reflexivity.
    + assert (Hf : filter (fun e => negb (Nat.eqb e (Canvas.element c)))
                     (Browser.body b) = Browser.body b).
      { induction (Browser.body b) as [|e l IH]; [reflexivity|].
        cbn in Ex. apply orb_false_iff in Ex. destruct Ex as [E1 E2].
        cbn. rewrite Nat.eqb_sym, E1. cbn. now rewrite IH. }
      rewrite Hf.
      destruct rr as [handle|]; cbn; [destruct (truthy handle)|]; cbn;
        split; reflexivity.
  - destruct rr as [handle|]; cbn; [destruct (truthy handle)|]; cbn;
      split; reflexivity.
Qed.

(** *** The driver is scheduled while it is active *)

Lemma driven_mount b :
  Browser.context2d b = true ->
  Browser.frameRequests b = [] ->
  driven (exec mount_effect (first_render b)).
Proof.
  intros Ex Ef.
  destruct (mount_effect_first b) as (Hc & _ & Hx & Hp & Hl & Ha).
  unfold driven. rewrite Hc, Hx, Hp, Hl, Ha.
  repeat split; eauto; discriminate.
Qed.

Lemma driven_fire w w' (fuel : nat) (options : ConfettiOptions.t num) :
  driven w ->
  fire (Hook.isActive (World.refs w)) fuel options w = Some w' ->
  driven w'.
Proof.
  intros ((c & Ec) & Ex & Hon & Hoff) Hf.
  destruct (Browser.reducedMotion (World.page w)) eqn:Er.
  - rewrite (fire_reduced_motion _ _ _ w Ec Er) in Hf. injection Hf as <-.
    unfold driven, pending, pool in *. cbn. eauto.
  - destruct (fire_spawns _ _ _ w Ec Er Hf)
      as (batch & Hp & _ & Hq & Ha & Hc & Hx & _).
    unfold driven. rewrite Hq, Ha, Hc, Hx.
    split; [eauto|]. split; [exact Ex|].
    destruct (Hook.isActive (World.refs w)) eqn:Ea.
    + split; [intros _; now apply Hon | discriminate].
    + destruct (Hoff eq_refl) as (-> & _).
      split; [intros _; eexists; reflexivity | discriminate].
Qed.

Lemma driven_frame w : driven w -> driven (exec run_frame w).
Proof.
  intros ((c & Ec) & Ex & Hon & Hoff).
  destruct (Hook.isActive (World.refs w)) eqn:Ea.
  - destruct (Hon eq_refl) as (handle & Eh).
    rewrite (run_frame_one w Eh).
    set (w0 := World.mk _ _).
    assert (Ec0 : Hook.canvasRef (World.refs w0) = Some c) by exact Ec.
    assert (Ex0 : Browser.context2d (World.page w0) = true)
      by (destruct w as [[] ?]; exact Ex).
    destruct (animate_pass w0 Ec0 Ex0) as (Hp & Hq & Ha & _ & Hc & Hx & _).
    unfold driven. rewrite Hp, Hq, Ha, Hc, Hx.
    assert (E0 : pending w0 = []) by (destruct w as [[] ?]; reflexivity).
    rewrite E0.
    split; [eauto|]. split; [reflexivity|].
    destruct (survivors c (pool w0)) as [|q kept].
    + split; [discriminate | intros _; split; reflexivity].
    + split; [intros _; eexists; reflexivity|].
      subst w0. cbn [World.refs]. intro Hfalse. congruence.
  - destruct (Hoff eq_refl) as (Eh & Ep).
    rewrite (run_frame_idle w Eh).
    unfold driven. rewrite Ea.
    split; [eauto|]. split; [exact Ex|].
    split; [discriminate | intros _; split; assumption].
Qed.

Lemma frame_stops_when_empty w :
  driven w ->
  pool (exec run_frame w) = [] -> pending (exec run_frame w) = [].
Proof.
  intros ((c & Ec) & Ex & Hon & Hoff).
  destruct (Hook.isActive (World.refs w)) eqn:Ea.
  - destruct (Hon eq_refl) as (handle & Eh).
    rewrite (run_frame_one w Eh).
    set (w0 := World.mk _ _).
    assert (Ec0 : Hook.canvasRef (World.refs w0) = Some c) by exact Ec.
    assert (Ex0 : Browser.context2d (World.page w0) = true)
      by (destruct w as [[] ?]; exact Ex).
    destruct (animate_pass w0 Ec0 Ex0) as (Hp & Hq & _).
    rewrite Hp, Hq. intros ->.
    destruct w as [[] ?]; reflexivity.
  - destruct (Hoff eq_refl) as (Eh & Ep).
    rewrite (run_frame_idle w Eh). intros _. exact Eh.
Qed.

Lemma lifecycle_driven w : lifecycle w -> driven w.
Proof.
  induction 1 as [b Ex Ef | w w' fuel options _ IH Hf | w _ IH | w r _ IH].
  - now apply driven_mount.
  - eapply driven_fire; eassumption.
  - now apply driven_frame.
  - destruct w as [[] ?]. exact IH.
Qed.

(** *** One hook owns at most one canvas of the document *)

Lemma mount_effect_creates w :
  Hook.canvasRef (World.refs w) = None ->
  Hook.canvasRef (World.refs (exec mount_effect w))
  = Some (Canvas.mk (Browser.nextElement (World.page w))
            (Browser.innerWidth (World.page w))
            (Browser.innerHeight (World.page w))) /\
  Browser.body (World.page (exec mount_effect w))
  = Browser.body (World.page w) ++ [Browser.nextElement (World.page w)] /\
  Browser.nextElement (World.page (exec mount_effect w))
  = S (Browser.nextElement (World.page w)).
Proof.
  destruct w as [b h]. destruct h as [cr gr ps rr ia]. cbn. intros ->.
  destruct b as [iw ih rm gl cx bd ne fr nh rs ru co mq pa].
  destruct gl; cbn; repeat split.
Qed.

Lemma cleanup_counter w :
  Browser.nextElement (World.page (exec cleanup w))
  = Browser.nextElement (World.page w).
Proof.
  destruct w as [b h]. destruct h as [cr gr ps rr ia].
  unfold exec, cleanup, bind, read, browser, body_contains, removeChild,
    cancelAnimationFrame. cbn.
  destruct cr as [c|]; cbn;
    [destruct (existsb (Nat.eqb (Canvas.element c)) (Browser.body b)); cbn|].
  all: destruct rr as [handle|]; cbn; [destruct (truthy handle)|]; cbn.
  all: reflexivity.
Qed.

Lemma animate_counter w :
  Browser.nextElement (World.page (exec animate w))
  = Browser.nextElement (World.page w).
Proof.
  destruct (Hook.canvasRef (World.refs w)) as [c|] eqn:Ec.
  - destruct (Browser.context2d (World.page w)) eqn:Ex.
    + destruct w as [b h]. cbn in Ec, Ex.
      unfold exec, animate, bind, read, write, browser, getContext_2d,
        clearRect.
      cbn. rewrite Ec. cbn. rewrite Ex. cbn. rewrite filter_particles_spec.
      cbn. destruct (survivors c (Hook.particlesRef h)); reflexivity.
    + now rewrite (animate_without_context w Ex).
  - now rewrite (animate_without_canvas w Ec).
Qed.

Lemma callbacks_counter (n : nat) w :
  Browser.nextElement (World.page (exec (callbacks n) w))
  = Browser.nextElement (World.page w).
Proof.
  revert w. induction n as [|n IH]; intro w; cbn [callbacks].
  - reflexivity.
  - rewrite exec_bind. fold (exec animate w).
    rewrite IH. apply animate_counter.
Qed.

Lemma run_frame_counter w :
  Browser.nextElement (World.page (exec run_frame w))
  = Browser.nextElement (World.page w).
Proof.
  unfold run_frame. rewrite exec_bind. rewrite callbacks_counter.
  destruct w as [b h]. reflexivity.
Qed.

Lemma fire_counter (isActive : bool) (fuel : nat)
  (options : ConfettiOptions.t num) w w' :
  fire isActive fuel options w = Some w' ->
  Browser.nextElement (World.page w') = Browser.nextElement (World.page w).
Proof.
  intro Hf.
  destruct (Hook.canvasRef (World.refs w)) as [c|] eqn:Ec.
  - destruct (Browser.reducedMotion (World.page w)) eqn:Er.
    + rewrite (fire_reduced_motion _ _ _ w Ec Er) in Hf.
      injection Hf as <-. reflexivity.
    + unfold fire in Hf. rewrite Ec in Hf.
      unfold browser, matchMedia_reduced_motion in Hf. rewrite Er in Hf.
      cbn [World.page World.refs] in Hf.
      destruct (spawn _ _ _ _ _ _) as [[batch page]|] eqn:Es; [|discriminate].
      apply spawn_spec with (P := fun _ => True) in Es.
      * destruct Es as (batch' & n & -> & _ & ->).
        destruct w as [b h].
        destruct isActive; cbn in Hf; injection Hf as <-; reflexivity.
      * intro b0. apply new_particle_page.
      * intro b0. exact I.
  - rewrite (fire_without_canvas _ _ _ w Ec) in Hf.
    now injection Hf as <-.
Qed.

Lemma count_occ_filter_out (x : nat) (l : list nat) :
  count_occ Nat.eq_dec (filter (fun e => negb (Nat.eqb e x)) l) x = 0%nat.
Proof.
  apply count_occ_not_In. intro Hin. apply filter_In in Hin.
  destruct Hin as (_ & Hx). now rewrite Nat.eqb_refl in Hx.
Qed.

Lemma count_occ_filter_other (x y : nat) (l : list nat) :
  x <> y ->
  count_occ Nat.eq_dec (filter (fun e => negb (Nat.eqb e y)) l) x
  = count_occ Nat.eq_dec l x.
Proof.
  intro Hxy. induction l as [|e l IH]; [reflexivity|].
  cbn [filter]. destruct (Nat.eqb_spec e y) as [-> | Hey]; cbn [negb].
  - rewrite count_occ_cons_neq by congruence. exact IH.
  - destruct (Nat.eq_dec e x) as [-> | Hex].
    + rewrite !count_occ_cons_eq by reflexivity. now rewrite IH.
    + rewrite !count_occ_cons_neq by exact Hex. exact IH.
Qed.

Lemma count_occ_append_other (x y : nat) (l : list nat) :
  x <> y ->
  count_occ Nat.eq_dec (l ++ [y]) x = count_occ Nat.eq_dec l x.
Proof.
  intro Hxy. rewrite count_occ_app.
  rewrite (count_occ_cons_neq Nat.eq_dec [] (x := y) (y := x))
    by congruence.
  cbn. lia.
Qed.

(** What an event does to the document and to [canvasRef]. *)
Lemma step_document (e : Event) w w' :
  step e w = Some w' ->
  match e, Hook.canvasRef (World.refs w) with
  | Mount, None =>
      exists canvas,
        Hook.canvasRef (World.refs w') = Some canvas /\
        Canvas.element canvas = Browser.nextElement (World.page w) /\
        Browser.body (World.page w')
        = Browser.body (World.page w) ++ [Browser.nextElement (World.page w)] /\
        Browser.nextElement (World.page w')
        = S (Browser.nextElement (World.page w))
  | Unmount, Some canvas =>
      Hook.canvasRef (World.refs w') = Some canvas /\
      Browser.body (World.page w')
      = filter (fun x => negb (Nat.eqb x (Canvas.element canvas)))
          (Browser.body (World.page w)) /\
      Browser.nextElement (World.page w') = Browser.nextElement (World.page w)
  | _, ref =>
      Hook.canvasRef (World.refs w') = ref /\
      Browser.body (World.page w') = Browser.body (World.page w) /\
      Browser.nextElement (World.page w') = Browser.nextElement (World.page w)
  end.
Proof.
  intro Hs. destruct e; cbn [step] in Hs.
  - (* Mount *)
    injection Hs as <-.
    destruct (Hook.canvasRef (World.refs w)) as [c|] eqn:Ec.
    + rewrite (mount_effect_again w Ec). auto.
    + destruct (mount_effect_creates w Ec) as (Hc & Hb & Hn).
      eexists. split; [exact Hc|]. cbn. auto.
  - (* Unmount *)
    injection Hs as <-.
    destruct (cleanup_canvas w) as (Hc & Hb).
    pose proof (cleanup_counter w) as Hn.
    destruct (Hook.canvasRef (World.refs w)) as [c|]; auto.
  - (* Fire *)
    destruct (fire_keeps_canvas _ _ _ _ Hs) as (Hb & Hc).
    pose proof (fire_counter _ _ _ _ Hs) as Hn.
    destruct (Hook.canvasRef (World.refs w)); auto.
  - (* Frame *)
    injection Hs as <-.
    destruct (run_frame_keeps_canvas w) as (Hb & Hc).
    pose proof (run_frame_counter w) as Hn.
    destruct (Hook.canvasRef (World.refs w)); auto.
  - (* Preference *)
    injection Hs as <-. destruct w as [[] ?]. cbn.
    destruct (Hook.canvasRef _); auto.
Qed.

Lemma step_fresh (e : Event) w w' :
  fresh_ids (World.page w) ->
  step e w = Some w' ->
  fresh_ids (World.page w') /\
  (Browser.nextElement (World.page w)
   <= Browser.nextElement (World.page w'))%nat.
Proof.
  unfold fresh_ids. intros Hfresh Hs. apply step_document in Hs.
  destruct e, (Hook.canvasRef (World.refs w)) as [c|];
    try (destruct Hs as (_ & Hb & Hn); rewrite Hb, Hn;
         split; [exact Hfresh | lia]).
  - (* the mount effect makes the canvas *)
    destruct Hs as (canvas & _ & _ & Hb & Hn). rewrite Hb, Hn.
    split; [|lia]. intros x Hx. apply in_app_or in Hx.
    destruct Hx as [Hx | [<- | []]]; [apply Hfresh in Hx|]; lia.
  - (* the cleanup takes it out *)
    destruct Hs as (_ & Hb & Hn). rewrite Hb, Hn. split; [|lia].
    intros x Hx. apply filter_In in Hx. now apply Hfresh.
Qed.

Lemma owns_one_canvas_step (e : Event) w w' :
  owns_one_canvas w -> step e w = Some w' -> owns_one_canvas w'.
Proof.
  intros (Hfresh & Hown) Hs.
  destruct (step_fresh e w Hfresh Hs) as (Hfresh' & _).
  split; [exact Hfresh'|]. apply step_document in Hs.
  unfold occurrences in *.
  destruct e, (Hook.canvasRef (World.refs w)) as [c|] eqn:Ec;
    try (destruct Hs as (Hc & Hb & Hn); rewrite Hc, Hb, Hn; exact Hown).
  - (* the mount effect makes the canvas *)
    destruct Hs as (canvas & Hc & He & Hb & Hn). rewrite Hc, Hb, Hn.
    intros canvas' [= <-]. rewrite He. split; [lia|].
    rewrite count_occ_app. cbn.
    destruct (Nat.eq_dec _ _) as [_|Hne]; [|contradiction].
    assert (E : count_occ Nat.eq_dec (Browser.body (World.page w))
                  (Browser.nextElement (World.page w)) = 0%nat).
    { apply count_occ_not_In. intro Hin. apply Hfresh in Hin. lia. }
    rewrite E. lia.
  - (* the cleanup takes it out *)
    destruct Hs as (Hc & Hb & Hn). rewrite Hc, Hb, Hn.
    intros canvas [= <-]. split; [now apply Hown|].
    rewrite count_occ_filter_out. lia.
Qed.

Lemma hosted_owns_one_canvas w : hosted w -> owns_one_canvas w.
Proof.
  induction 1 as [b Hfresh | w w' e _ IH Hs | w page _ IH Ho].
  - split; [exact Hfresh | discriminate].
  - eapply owns_one_canvas_step; eassumption.
  - destruct IH as (_ & Hown). destruct Ho as (Hle & Hfresh & Hocc).
    split; [exact Hfresh|]. cbn [World.page World.refs].
    intros canvas Ec. destruct (Hown canvas Ec) as (Hlt & Hone).
    rewrite (Hocc canvas Ec). split; [lia | exact Hone].
Qed.

(** A step of another call of [useConfetti] on the same page, whose canvas
    is another element, is a change by the rest of the page. *)
Lemma other_hook_step (e : Event) w v v' :
  owns_one_canvas w ->
  World.page v = World.page w ->
  (forall c c',
      Hook.canvasRef (World.refs w) = Some c ->
      Hook.canvasRef (World.refs v) = Some c' ->
      Canvas.element c <> Canvas.element c') ->
  step e v = Some v' ->
  others_change w (World.page v').
Proof.
  intros (Hfresh & Hown) Ep Hdiff Hs.
  rewrite <- Ep in Hfresh.
  destruct (step_fresh e v Hfresh Hs) as (Hfresh' & Hle).
  unfold others_change. rewrite <- Ep.
  split; [exact Hle|]. split; [exact Hfresh'|].
  intros c Ec. destruct (Hown c Ec) as (Hlt & _). rewrite <- Ep in Hlt.
  apply step_document in Hs. unfold occurrences.
  destruct e, (Hook.canvasRef (World.refs v)) as [c'|] eqn:Ev;
    try (destruct Hs as (_ & Hb & _); now rewrite Hb).
  - destruct Hs as (canvas & _ & _ & Hb & _). rewrite Hb.
    apply count_occ_append_other. lia.
  - destruct Hs as (_ & Hb & _). rewrite Hb.
    apply count_occ_filter_other. now apply Hdiff.
Qed.

End Facts.

(** ** The driver and the emitter, in exact arithmetic *)

Section Exact.

Context {MATH : JsMath Q}.

Lemma inject_succ (k : nat) :
  (inject_Z (Z.of_nat k) + 1 == inject_Z (Z.of_nat (S k)))%Q.
Proof.
  rewrite Nat2Z.inj_succ. unfold Z.succ. rewrite inject_Z_plus. reflexivity.
Qed.

Lemma spawn_count (make : State (Browser.t Q) (Particle.t Q)) (n : nat)
  (count : Q) :
  (count == inject_Z (Z.of_nat n))%Q ->
  forall (d k fuel : nat) (i : Q) (acc : list (Particle.t Q))
    (b : Browser.t Q),
    (i == inject_Z (Z.of_nat k))%Q ->
    (k + d = n)%nat ->
    (d <= fuel)%nat ->
    exists batch b',
      spawn fuel make count i acc b = Some (acc ++ batch, b') /\
      List.length batch = d.
Proof.
  intros Hn. induction d as [|d IH]; intros k fuel i acc b Hi Hk Hfuel.
  - assert (E : nlt i count = false).
    { apply QFacts.ltb_ge. rewrite Hn, Hi.
      replace k with n by lia. apply Qle_refl. }
    exists [], b. rewrite app_nil_r.
    destruct fuel; cbn [spawn]; rewrite E; split; reflexivity.
  - assert (E : nlt i count = true).
    { apply QFacts.ltb_lt. rewrite Hn, Hi. rewrite <- Zlt_Qlt. lia. }
    destruct fuel as [|fuel]; [lia|]. cbn [spawn]. rewrite E.
    destruct (make b) as [p b1].
    destruct (IH (S k) fuel (nadd i (lit 1)) (acc ++ [p]) b1)
      as (batch & b' & Es & Hl).
    + cbn. rewrite Hi. apply inject_succ.
    + lia.
    + lia.
    + exists (p :: batch), b'. rewrite Es, <- app_assoc. cbn.
      split; [reflexivity | now rewrite Hl].
Qed.

Lemma fire_count (isActive : bool) (fuel n : nat)
  (options : ConfettiOptions.t Q) (w : World.t Q) (c : Canvas.t Q) :
  Hook.canvasRef (World.refs w) = Some c ->
  Browser.reducedMotion (World.page w) = false ->
  (default (lit 150) (ConfettiOptions.particleCount options)
   == inject_Z (Z.of_nat n))%Q ->
  (n <= fuel)%nat ->
  exists w' batch,
    fire isActive fuel options w = Some w' /\
    pool w' = pool w ++ batch /\
    List.length batch = n.
Proof.
  intros Ec Er Hn Hfuel. unfold fire. rewrite Ec.
  unfold browser, matchMedia_reduced_motion. rewrite Er.
  cbn [World.page World.refs].
  match goal with
  | |- context [spawn fuel ?make ?count ?i [] ?b] =>
      destruct (@spawn_count make n count Hn n 0%nat fuel i [] b)
        as (batch & b' & Es & Hl);
        [reflexivity | lia | lia | rewrite Es]
  end.
  cbn [app]. destruct w as [b h]. unfold pool.
  destruct isActive; cbn; eexists; exists batch;
    (split; [reflexivity | split; [reflexivity | exact Hl]]).
Qed.

Lemma fading_start (p : Particle.t Q) :
  (Particle.alpha p == 1)%Q -> (Particle.life p == 0)%Q -> fading p.
Proof.
  intros Ha Hl. unfold fading. rewrite Ha, Hl.
  repeat split; try lra.
  - intros _. unfold Qdiv. rewrite Qmult_0_l. lra.
  - intros _. unfold Qdiv. rewrite Qmult_0_l. lra.
Qed.

Lemma fading_update (p : Particle.t Q) :
  fading p ->
  fading (update p) /\
  (Particle.alpha (update p) <= Particle.alpha p)%Q /\
  (Particle.life (update p) == Particle.life p + 1)%Q.
Proof.
  intros (Hl & Ha0 & Ha1 & Hlin & Hlow).
  destruct (update_physics p) as (_ & _ & _ & _ & El).
  destruct (update_fixed p) as (_ & _ & _ & _ & _ & _ & Em).
  destruct (update_color p) as (_ & Ea).
  unfold fading. rewrite El, Em, Ea.
  cbn [nadd nsub ndiv nlt nmax lit Q_number].
  set (L := (Particle.life p + 1)%Q).
  set (M := Particle.maxLife p) in *.
  assert (HL : (1 <= L)%Q) by (unfold L; lra).
  assert (Hstep : (0 < M)%Q ->
                  (Particle.life p / M <= L / M)%Q).
  { intro HM. unfold Qdiv. apply Qmult_le_compat_r; [unfold L; lra|].
    apply Qlt_le_weak. now apply Qinv_lt_0_compat. }
  destruct (QNumber.ltb L M) eqn:E.
  - apply QFacts.ltb_lt in E.
    assert (HM : (0 < M)%Q) by lra.
    assert (Hq : (L / M < 1)%Q) by (apply Qlt_shift_div_r; lra).
    assert (Hq0 : (0 <= L / M)%Q) by (apply Qle_shift_div_l; lra).
    assert (Hmax : (QNumber.max 0 (1 - L / M) == 1 - L / M)%Q)
      by (apply QFacts.max_zero_pos; lra).
    specialize (Hstep HM). specialize (Hlow HM).
    rewrite Hmax. repeat split; try lra.
  - apply QFacts.ltb_ge in E.
    repeat split; try lra;
      intro HM; specialize (Hstep HM); specialize (Hlow HM); lra.
Qed.

Lemma fading_ticks (k : nat) (p : Particle.t Q) :
  fading p ->
  fading (ticks k p) /\
  (Particle.life (ticks k p) == Particle.life p + inject_Z (Z.of_nat k))%Q.
Proof.
  intro Hp. induction k as [|k (IH & Hl)]; cbn [ticks].
  - split; [exact Hp|]. change (inject_Z (Z.of_nat 0)) with 0%Q. lra.
  - destruct (fading_update IH) as (Hf & _ & El).
    split; [exact Hf|]. rewrite El, Hl, <- inject_succ. lra.
Qed.

Lemma spawned_fading (options : ConfettiOptions.t Q) (c : Canvas.t Q)
  (p : Particle.t Q) :
  spawned options c p -> (Particle.life p == 0)%Q /\ fading p.
Proof.
  intros (b & ->). unfold maker.
  match goal with
  | |- context [new_particle ?cx ?cy ?sp ?v ?d ?i ?sh b] =>
      destruct (new_particle_start cx cy sp v d i sh b)
        as (_ & _ & Ha & Hl & _)
  end.
  assert (Hl' : (Particle.life
                   (fst (maker options c b)) == 0)%Q)
    by (unfold maker; rewrite Hl; reflexivity).
  split; [exact Hl'|]. apply fading_start; [|exact Hl'].
  unfold maker. rewrite Ha. reflexivity.
Qed.

(** The fade never takes a particle out of the pool: whatever its age, a
    particle that [fire] created leaves only by falling below the canvas. *)
Lemma spawned_leaves_only_below (options : ConfettiOptions.t Q)
  (c : Canvas.t Q) (p : Particle.t Q) (k : nat) :
  spawned options c p ->
  gone c (ticks k p)
  = nlt (nadd (Canvas.height c) (lit 100)) (Particle.y (ticks k p)).
Proof.
  intro Hs. destruct (spawned_fading Hs) as (_ & Hstart).
  destruct (fading_ticks k Hstart) as ((_ & Hpos & _) & _).
  unfold gone.
  assert (E : nle (Particle.alpha (ticks k p)) (lit 0) = false).
  { cbn [nle lit Q_number].
    destruct (Qle_bool (Particle.alpha (ticks k p)) 0) eqn:E; trivial.
    apply Qle_bool_iff in E. lra. }
  rewrite E. apply orb_false_r.
Qed.

End Exact.

(* ------------------------------------------------------------------ *)
(** * The claims of the specification *)

Section Claims.

Context {num : Type} {NUM : JsNumber num} {MATH : JsMath num}.

Local Open Scope js_scope.

(** C5.  When the reduced-motion preference is active, [fire] is a no-op
    for every options value and every state of the hook: it returns, the
    refs (pool, [rafRef], [isActive]) are what they were, no frame callback
    is requested, no random number is drawn and the document is untouched.
    The only trace is the diagnostic on the console. *)
Theorem reduced_motion_disables_fire (isActive : bool) (fuel : nat)
  (options : ConfettiOptions.t num) (w : World.t num) :
  Browser.reducedMotion (World.page w) = true ->
  exists w',
    fire isActive fuel options w = Some w' /\
    World.refs w' = World.refs w /\
    pool w' = pool w /\
    pending w' = pending w /\
    Browser.nextHandle (World.page w') = Browser.nextHandle (World.page w) /\
    Browser.randomUsed (World.page w') = Browser.randomUsed (World.page w) /\
    Browser.body (World.page w') = Browser.body (World.page w).
Proof.
  intro Er. destruct (Hook.canvasRef (World.refs w)) as [c|] eqn:Ec.
  - rewrite (fire_reduced_motion _ _ _ w Ec Er). eexists.
    split; [reflexivity|]. repeat split.
  - rewrite (fire_without_canvas _ _ _ w Ec). exists w. repeat split.
Qed.

(** C10.  While the canvas has not been created ([canvasRef.current] is
    null) [fire] returns at once for every options value: the whole state,
    pool and requested callbacks included, is what it was, and the outcome
    does not depend on the reduced-motion preference, which is not queried. *)
Theorem fire_without_canvas_is_noop (isActive : bool) (fuel : nat)
  (options : ConfettiOptions.t num) (w : World.t num) :
  Hook.canvasRef (World.refs w) = None ->
  fire isActive fuel options w = Some w /\
  (forall reduce : bool,
      let w0 :=
        World.mk (Browser.set_reducedMotion reduce (World.page w))
          (World.refs w) in
      exists w',
        fire isActive fuel options w0 = Some w' /\
        pool w' = pool w /\
        pending w' = pending w /\
        Browser.mediaQueries (World.page w')
        = Browser.mediaQueries (World.page w) /\
        Browser.console (World.page w') = Browser.console (World.page w)).
Proof.
  intro Ec. split.
  - now apply fire_without_canvas.
  - intros reduce w0. exists w0. split.
    + apply fire_without_canvas. exact Ec.
    + destruct w as [[] ?]. repeat split.
Qed.

(** C7 (as amended).  Every particle [fire] creates has
    [maxLife = duration / 16.67], with 4000 for an absent duration; the
    quotient is stored as it is, without rounding. *)
Theorem maxLife_is_duration_over_frame_time (isActive : bool) (fuel : nat)
  (options : ConfettiOptions.t num) (w w' : World.t num) (c : Canvas.t num) :
  Hook.canvasRef (World.refs w) = Some c ->
  Browser.reducedMotion (World.page w) = false ->
  fire isActive fuel options w = Some w' ->
  exists batch,
    pool w' = pool w ++ batch /\
    Forall
      (fun p =>
         Particle.maxLife p
         = default (lit 4000) (ConfettiOptions.duration options) / lit 16.67)
      batch.
Proof.
  intros Ec Er Hf.
  destruct (fire_spawns _ _ _ w Ec Er Hf) as (batch & Hp & Hs & _).
  exists batch. split; [exact Hp|].
  eapply Forall_impl; [|exact Hs].
  intros p (b & ->). unfold maker.
  match goal with
  | |- context [new_particle ?cx ?cy ?sp ?v ?d ?i ?sh b] =>
      destruct (new_particle_start cx cy sp v d i sh b)
        as (_ & _ & _ & _ & Hm & _)
  end.
  exact Hm.
Qed.


(** C6 (as amended).  One call of [useConfetti] owns at most one canvas,
    on any page: the page may hold other canvases when the hook starts, the
    hook may go through any events (mount effect, cleanup, [fire] with any
    captured [isActive], frames, changes of the preference), and between
    them other components, other calls of [useConfetti] among them, may
    change the document.  In every such state the canvas of [canvasRef]
    occurs at most once in the document; a further run of the mount effect
    changes nothing; the cleanup takes this canvas, and no other element,
    out of the document.  While [canvasRef] is null the mount effect makes
    a new element and appends it.  [fire] changes neither the document nor
    [canvasRef].  No event replaces a canvas that [canvasRef] holds, and no
    event changes how often an element other than that canvas occurs in
    the document.  The steps of another hook on the same page, whose canvas
    is another element, keep the hook in such a state. *)
Theorem one_canvas_per_hook (w : World.t num) :
  hosted w ->
  (forall canvas,
      Hook.canvasRef (World.refs w) = Some canvas ->
      (occurrences (Canvas.element canvas) (World.page w) <= 1)%nat /\
      exec mount_effect w = w /\
      occurrences (Canvas.element canvas) (World.page (exec cleanup w))
      = 0%nat /\
      (forall e,
          e <> Canvas.element canvas ->
          occurrences e (World.page (exec cleanup w))
          = occurrences e (World.page w))) /\
  (Hook.canvasRef (World.refs w) = None ->
   exists canvas,
     Hook.canvasRef (World.refs (exec mount_effect w)) = Some canvas /\
     ~ In (Canvas.element canvas) (Browser.body (World.page w)) /\
     Browser.body (World.page (exec mount_effect w))
     = Browser.body (World.page w) ++ [Canvas.element canvas]) /\
  (forall (isActive : bool) (fuel : nat) (options : ConfettiOptions.t num) w',
      fire isActive fuel options w = Some w' ->
      Browser.body (World.page w') = Browser.body (World.page w) /\
      Hook.canvasRef (World.refs w') = Hook.canvasRef (World.refs w)) /\
  (forall (e : Event) w',
      step e w = Some w' ->
      (forall canvas,
          Hook.canvasRef (World.refs w) = Some canvas ->
          Hook.canvasRef (World.refs w') = Some canvas) /\
      (forall x,
          (forall canvas,
              Hook.canvasRef (World.refs w') = Some canvas ->
              x <> Canvas.element canvas) ->
          occurrences x (World.page w') = occurrences x (World.page w))) /\
  (forall (e : Event) (v v' : World.t num),
      World.page v = World.page w ->
      (forall c c',
          Hook.canvasRef (World.refs w) = Some c ->
          Hook.canvasRef (World.refs v) = Some c' ->
          Canvas.element c <> Canvas.element c') ->
      step e v = Some v' ->
      hosted (World.mk (World.page v') (World.refs w))).
Proof.
  intro Hh. pose proof (hosted_owns_one_canvas Hh) as J.
  destruct J as (Hfresh & Hown).
  split; [|split; [|split; [|split]]].
  - intros canvas Ec. destruct (Hown canvas Ec) as (_ & Hone).
    split; [exact Hone|]. split; [exact (mount_effect_again w Ec)|].
    destruct (cleanup_canvas w) as (_ & Hb). rewrite Ec in Hb.
    unfold occurrences. rewrite Hb. split.
    + apply count_occ_filter_out.
    + intros e He. now apply count_occ_filter_other.
  - intro Ec. destruct (mount_effect_creates w Ec) as (Hc & Hb & _).
    eexists. split; [exact Hc|]. cbn [Canvas.element].
    split; [|exact Hb]. intro Hin. apply Hfresh in Hin. lia.
  - intros. eapply fire_keeps_canvas. eassumption.
  - intros e w' Hs. apply step_document in Hs. unfold occurrences.
    destruct e, (Hook.canvasRef (World.refs w)) as [c|] eqn:Ec;
      try (destruct Hs as (Hc & Hb & _); rewrite Hc, Hb;
           split; [intros canvas E; exact E | reflexivity]).
    + destruct Hs as (canvas & Hc & He & Hb & _). rewrite Hb.
      split; [discriminate|]. intros x Hx.
      apply count_occ_append_other. rewrite <- He. now apply Hx.
    + destruct Hs as (Hc & Hb & _). rewrite Hc, Hb.
      split; [intros canvas E; exact E|]. intros x Hx.
      apply count_occ_filter_other. now apply Hx.
  - intros e v v' Ep Hdiff Hs. apply hosted_others; [exact Hh|].
    eapply other_hook_step; [split| | |]; eassumption.
Qed.

End Claims.

Section ExactClaims.

Context {MATH : JsMath Q}.

(** C4 (as amended).  Let two calls of [fire] follow each other, with whole
    particle counts [n] and [m] (150 each time the option is absent) and
    enough fuel for the loop.  Both calls return.  If the canvas exists and
    reduced motion is off, the first call appends a batch of exactly [n]
    particles at the end of the pool and the second a batch of exactly [m]
    after it, so two calls with count 5 leave the pool 10 larger.  If the
    canvas does not exist yet, or reduced motion is active, the pool is
    unchanged whatever the counts. *)
Theorem fire_appends_batch (a1 a2 : bool) (fuel n m : nat)
  (o1 o2 : ConfettiOptions.t Q) (w : World.t Q) :
  (default (lit 150) (ConfettiOptions.particleCount o1)
   == inject_Z (Z.of_nat n))%Q ->
  (default (lit 150) (ConfettiOptions.particleCount o2)
   == inject_Z (Z.of_nat m))%Q ->
  (n <= fuel)%nat ->
  (m <= fuel)%nat ->
  exists w1 w2,
    fire a1 fuel o1 w = Some w1 /\
    fire a2 fuel o2 w1 = Some w2 /\
    if emits w then
      exists batch1 batch2,
        pool w1 = pool w ++ batch1 /\
        pool w2 = pool w ++ batch1 ++ batch2 /\
        List.length batch1 = n /\
        List.length batch2 = m /\
        List.length (pool w2) = (List.length (pool w) + n + m)%nat
    else pool w1 = pool w /\ pool w2 = pool w.
Proof.
  intros Hn Hm Fn Fm. unfold emits.
  destruct (Hook.canvasRef (World.refs w)) as [c|] eqn:Ec.
  - destruct (Browser.reducedMotion (World.page w)) eqn:Er; cbn [negb].
    + rewrite (fire_reduced_motion _ _ _ w Ec Er).
      eexists. eexists. split; [reflexivity|].
      rewrite (@fire_reduced_motion _ _ _ a2 fuel o2 _ c);
        [|exact Ec|exact Er].
      split; [reflexivity|]. split; reflexivity.
    + destruct (fire_count a1 o1 w Ec Er Hn Fn) as (w1 & b1 & Hf1 & Hp1 & Hl1).
      destruct (fire_spawns _ _ _ w Ec Er Hf1)
        as (_ & _ & _ & _ & _ & Ec1 & _ & _ & Er1).
      destruct (fire_count a2 o2 w1 Ec1 Er1 Hm Fm)
        as (w2 & b2 & Hf2 & Hp2 & Hl2).
      exists w1, w2. split; [exact Hf1|]. split; [exact Hf2|].
      exists b1, b2. rewrite Hp2, Hp1, <- app_assoc.
      repeat split; try assumption.
      rewrite !length_app. lia.
  - rewrite (fire_without_canvas _ _ _ w Ec). exists w, w.
    split; [reflexivity|].
    rewrite (fire_without_canvas _ _ _ w Ec).
    split; [reflexivity|]. split; reflexivity.
Qed.

(** C9.  For every particle [fire] creates (it starts with alpha 1 and
    life 0) and every number [k] of driver updates: the next update does
    not raise alpha; life is [k]; while [life < maxLife], alpha is the
    linear fade [1 - k / maxLife]; alpha is at most 1; and alpha is at or
    below 0 only if [life >= maxLife].  (Alpha in fact stays above 0
    through every update.) *)
Theorem alpha_fades_monotonically (options : ConfettiOptions.t Q)
  (c : Canvas.t Q) (p : Particle.t Q) (k : nat) :
  spawned options c p ->
  (Particle.alpha (ticks (S k) p) <= Particle.alpha (ticks k p))%Q /\
  (Particle.life (ticks k p) == inject_Z (Z.of_nat k))%Q /\
  ((Particle.life (ticks k p) < Particle.maxLife p)%Q ->
   (Particle.alpha (ticks k p)
    == 1 - inject_Z (Z.of_nat k) / Particle.maxLife p)%Q) /\
  (Particle.alpha (ticks k p) <= 1)%Q /\
  ((Particle.alpha (ticks k p) <= 0)%Q ->
   (Particle.maxLife p <= Particle.life (ticks k p))%Q) /\
  (0 < Particle.alpha (ticks k p))%Q.
Proof.
  intro Hs.
  destruct (spawned_fading Hs) as (Hl & Hstart).
  destruct (fading_ticks k Hstart) as (Hf & Ek).
  destruct (fading_update Hf) as (_ & Hmono & _).
  destruct Hf as (_ & Hpos & Hone & Hlin & _).
  destruct (ticks_fixed k p) as (_ & _ & Em). rewrite Em in Hlin.
  assert (Ek' : (Particle.life (ticks k p) == inject_Z (Z.of_nat k))%Q)
    by (rewrite Ek, Hl; lra).
  split; [exact Hmono|]. split; [exact Ek'|].
  split; [intro Hlt; rewrite <- Ek'; now apply Hlin|].
  split; [exact Hone|]. split; [intro Hle; lra | exact Hpos].
Qed.

End ExactClaims.

(* ------------------------------------------------------------------ *)
(** * The claims on concrete inputs *)

Import Examples.

(** C1 (code defect).  On a 1920 x 1080 page, [fire({ particleCount: 1 })]
    with the default duration of 4000 ms creates a particle with
    [maxLife = 4000 / 16.67 = 239.95...].  It leaves straight up at 36 px
    per frame.  After 240 frames its life is 240, above [maxLife], and it
    is still in the pool, in the middle of the screen, with alpha 0.0039...:
    the update of alpha is skipped once [life < maxLife] fails, so alpha
    never reaches 0.  The particle stays until frame 256, when it has fallen
    100 px below the canvas. *)
Theorem expired_particle_stays_in_pool :
  let w : option (World.t float) :=
    fired (count 1) (mounted false GLNull true) in
  (exists p,
      option_map (@pool float) (after 240 w) = Some [p] /\
      nequal (Particle.life p) (lit 240) = true /\
      nlt (Particle.maxLife p) (Particle.life p) = true /\
      nlt (lit 0) (Particle.alpha p) = true /\
      nlt (lit 0) (Particle.y p) = true /\
      nlt (Particle.y p) (lit 1080) = true) /\
  option_map (fun w => List.length (pool w)) (after 255 w) = Some 1%nat /\
  option_map (@pool float) (after 256 w) = Some [].
Proof.
  cbv zeta. split; [|split].
  - eexists. split; [vm_compute; reflexivity|].
    split; [|split; [|split; [|split]]]; vm_compute; reflexivity.
  - vm_compute; reflexivity.
  - vm_compute; reflexivity.
Qed.



(** C3 (code defect).  On a page where [canvas.getContext('webgl')] yields
    a context, the mount effect takes it, and [canvas.getContext('2d')] of
    the same canvas is null from then on.  [fire({ particleCount: 1 })]
    puts a particle in the pool and requests a callback; at the next frame
    the callback returns at [if (!ctx) return;], where it neither requests
    a callback nor calls [setIsActive(false)].  So the pool holds a
    particle while nothing is requested and nothing was drawn, and
    [isActive] stays true for good: a later [fire] through the latest
    callback (which captured [isActive = true]) adds its particle and
    requests nothing either. *)
Theorem driver_stops_without_context :
  exists w w' : World.t float,
    run (MATH := taylor_math) [Mount; Fire false 200 (count 1); Frame]
      (first_render (desktop false GLContext false))
    = Some w /\
    List.length (pool w) = 1%nat /\
    pending w = [] /\
    Browser.painted (World.page w) = [] /\
    Hook.isActive (World.refs w) = true /\
    run (MATH := taylor_math)
      [Fire (Hook.isActive (World.refs w)) 200 (count 1); Frame] w
    = Some w' /\
    List.length (pool w') = 2%nat /\
    pending w' = [] /\
    Browser.painted (World.page w') = [].
Proof.
  eexists. eexists. split; [vm_compute; reflexivity|].
  split; [vm_compute; reflexivity|].
  split; [vm_compute; reflexivity|].
  split; [vm_compute; reflexivity|].
  split; [vm_compute; reflexivity|].
  split; [vm_compute; reflexivity|].
  split; [vm_compute; reflexivity|].
  split; vm_compute; reflexivity.
Qed.

(** C4 fails as stated: at the first render, before the mount effect has
    created the canvas, [fire({ particleCount: 5 })] returns with the pool
    as it was, empty, although reduced motion is off. *)
Lemma fire_before_mount_adds_nothing :
  let w : World.t float := first_render (desktop false GLNull true) in
  Browser.reducedMotion (World.page w) = false /\
  pool w = [] /\
  option_map (fun w' => List.length (pool w')) (fired (count 5) w)
  = Some 0%nat.
Proof.
  cbv zeta. split; [|split]; vm_compute; reflexivity.
Qed.

(** The scenario of the specification on binary64 numbers: two calls of
    [fire({ particleCount: 5 })] on a mounted hook leave ten particles, the
    five of the second call after the five of the first. *)
Example two_bursts_binary64 :
  let w : World.t float := mounted false GLNull true in
  let w1 := result (fired (count 5) w) w in
  let w2 := result (fire (MATH := taylor_math) true 200 (count 5) w1) w1 in
  List.length (pool w1) = 5%nat /\
  List.length (pool w2) = 10%nat /\
  firstn 5 (pool w2) = pool w1.
Proof.
  cbv zeta. split; [|split]; vm_compute; reflexivity.
Qed.

(** [fire_appends_batch] for two calls of [fire({ particleCount: 5 })] on a
    mounted hook, in exact arithmetic. *)
Lemma fire_appends_batch_witness :
  let w : World.t Q := mounted false GLNull true in
  exists w1 w2,
    fired (count 5) w = Some w1 /\
    fire (MATH := taylor_math) true 200 (count 5) w1 = Some w2 /\
    List.length (pool w1) = 5%nat /\
    List.length (pool w2) = 10%nat /\
    exists batch, pool w2 = pool w1 ++ batch.
Proof.
  intro w.
  destruct (@fire_appends_batch taylor_math false true 200 5 5
              (count 5) (count 5) w)
    as (w1 & w2 & H1 & H2 & H).
  - reflexivity.
  - reflexivity.
  - lia.
  - lia.
  - exists w1, w2. split; [exact H1|]. split; [exact H2|].
    change (emits w) with true in H.
    destruct H as (b1 & b2 & Hp1 & Hp2 & Hl1 & Hl2 & Hl).
    split; [rewrite Hp1; exact Hl1|]. split; [exact Hl|].
    exists b2. rewrite Hp2, Hp1. apply app_assoc.
Defined.

(** [reduced_motion_disables_fire] for the scenario of the specification:
    with reduced motion on, [fire({ particleCount: 100 })] leaves the pool
    empty and requests no frame callback. *)
Lemma reduced_motion_disables_fire_witness :
  let w : World.t float := mounted true GLNull true in
  exists w',
    fired (count 100) w = Some w' /\
    pool w' = [] /\
    pending w' = [].
Proof.
  intro w.
  destruct (@reduced_motion_disables_fire float binary64 taylor_math
              false 200%nat (count 100) w)
    as (w' & Hf & _ & Hp & Hq & _).
  - reflexivity.
  - exists w'. split; [exact Hf|]. split; [exact Hp | exact Hq].
Defined.

(** C6 fails as stated: two components that call [useConfetti] on one page
    each create a canvas of their own, so that the document holds two. *)
Lemma two_hooks_two_canvases :
  let page : Browser.t float := World.page (snd two_hooks) in
  Browser.body page = [0%nat; 1%nat] /\
  option_map (@Canvas.element float) (Hook.canvasRef (World.refs (fst two_hooks)))
  = Some 0%nat /\
  option_map (@Canvas.element float) (Hook.canvasRef (World.refs (snd two_hooks)))
  = Some 1%nat /\
  (1 < List.length (Browser.body page))%nat.
Proof.
  cbv zeta. split; [|split; [|split]]; vm_compute; (reflexivity || lia).
Qed.

(** [one_canvas_per_hook] for the two hooks of one page.  The second
    starts on a page that holds the canvas of the first (element 0); its
    own canvas (element 1) is in the document once, and its cleanup takes
    out element 1 and leaves element 0.  The first has seen the second add
    its canvas, and its own is in the document once. *)
Lemma one_canvas_per_hook_witness :
  let first : World.t float := fst two_hooks in
  let second : World.t float := snd two_hooks in
  (occurrences 0 (World.page first) <= 1)%nat /\
  (occurrences 1 (World.page second) <= 1)%nat /\
  occurrences 1 (World.page (exec cleanup second)) = 0%nat /\
  occurrences 0 (World.page (exec cleanup second))
  = occurrences 0 (World.page second).
Proof.
  intros first second.
  assert (Eb : Browser.body
                 (World.page (mounted (num := float) false GLNull true))
               = [0%nat]) by reflexivity.
  assert (En : Browser.nextElement
                 (World.page (mounted (num := float) false GLNull true))
               = 1%nat) by reflexivity.
  split.
  - destruct (@one_canvas_per_hook float binary64 taylor_math first)
      as (Hown & _).
    + apply (@hosted_others float binary64 taylor_math
               (mounted false GLNull true) (World.page second)).
      * apply (@hosted_step float binary64 taylor_math
                 (first_render (desktop false GLNull true))
                 (mounted false GLNull true) Mount);
          [|reflexivity].
        apply hosted_first. intros e [].
      * split; [rewrite En; vm_compute; lia|]. split.
        -- intros e He.
           assert (Eb2 : Browser.body (World.page second)
                         = [0%nat; 1%nat]) by reflexivity.
           assert (En2 : Browser.nextElement (World.page second) = 2%nat)
             by reflexivity.
           rewrite Eb2 in He. rewrite En2.
           destruct He as [<- | [<- | []]]; lia.
        -- intros canvas [= <-]. reflexivity.
    + destruct (Hown (Canvas.mk 0 (lit 1920) (lit 1080)) eq_refl)
        as (Hone & _).
      exact Hone.
  - destruct (@one_canvas_per_hook float binary64 taylor_math second)
      as (Hown & _).
    + apply (@hosted_step float binary64 taylor_math
               (first_render (World.page (mounted false GLNull true)))
               second Mount);
        [|reflexivity].
      apply hosted_first. intros e He.
      cbn [first_render World.page] in He |- *.
      rewrite Eb in He. rewrite En. destruct He as [<- | []]. lia.
    + destruct (Hown (Canvas.mk 1 (lit 1920) (lit 1080)) eq_refl)
        as (Hone & _ & Hout & Hrest).
      split; [exact Hone|]. split; [exact Hout|].
      apply Hrest. discriminate.
Defined.

(** C7 fails as stated: with the default duration, [maxLife] is
    [4000 / 16.67], which lies strictly between 239 and 240, in binary64 as
    in exact arithmetic. *)
Lemma default_maxLife_is_fractional :
  (exists p : Particle.t float,
      option_map (@pool float) (fired (count 1) (mounted false GLNull true))
      = Some [p] /\
      nequal (nfloor (Particle.maxLife p)) (lit 239) = true /\
      nlt (nfloor (Particle.maxLife p)) (Particle.maxLife p) = true) /\
  (exists p : Particle.t Q,
      option_map (@pool Q) (fired (count 1) (mounted false GLNull true))
      = Some [p] /\
      nequal (nfloor (Particle.maxLife p)) (lit 239) = true /\
      nlt (nfloor (Particle.maxLife p)) (Particle.maxLife p) = true).
Proof.
  split; eexists; (split; [vm_compute; reflexivity|]);
    split; vm_compute; reflexivity.
Qed.

(** [maxLife_is_duration_over_frame_time] for a call with the default
    duration. *)
Lemma maxLife_is_duration_over_frame_time_witness :
  exists batch : list (Particle.t float),
    pool (result (fired (count 1) (mounted false GLNull true))
            (mounted false GLNull true))
    = pool (mounted false GLNull true) ++ batch /\
    Forall
      (fun p => Particle.maxLife p = ndiv (lit 4000) (lit 16.67)) batch.
Proof.
  apply (@maxLife_is_duration_over_frame_time float binary64 taylor_math
           false 200%nat (count 1) (mounted false GLNull true)
           (result (fired (count 1) (mounted false GLNull true))
              (mounted false GLNull true))
           (Canvas.mk 0 (lit 1920) (lit 1080))).
  - reflexivity.
  - reflexivity.
  - vm_compute. reflexivity.
Defined.

(** C8 (code defect, the one of C3).  On a page where
    [canvas.getContext('webgl')] yields a context, a step of the driver
    updates no particle: after [fire({ particleCount: 1 })] the particle
    has [vy = -36], [y = 540] and [life = 0], and after the frame that runs
    the requested callback, and after a further call of the driver, it has
    them still.  The step returns at [if (!ctx) return;] before it reaches
    the updates. *)
Theorem driver_step_skipped_without_context :
  let w : World.t float :=
    result (fired (count 1) (mounted false GLContext false))
      (mounted false GLContext false) in
  exists p : Particle.t float,
    pool w = [p] /\
    pending w = [1%nat] /\
    nequal (Particle.vy p) (lit (-36)) = true /\
    nequal (Particle.y p) (lit 540) = true /\
    nequal (Particle.life p) (lit 0) = true /\
    pool (exec (run_frame (MATH := taylor_math)) w) = [p] /\
    pool (exec (animate (MATH := taylor_math))
            (exec (run_frame (MATH := taylor_math)) w)) = [p].
Proof.
  cbv zeta. eexists. split; [vm_compute; reflexivity|].
  split; [vm_compute; reflexivity|].
  split; [vm_compute; reflexivity|].
  split; [vm_compute; reflexivity|].
  split; [vm_compute; reflexivity|].
  split; vm_compute; reflexivity.
Qed.

(** [alpha_fades_monotonically] for a particle with the default duration,
    between its first and its second update. *)
Lemma alpha_fades_monotonically_witness :
  let p : Particle.t Q :=
    fst (maker (MATH := taylor_math) (count 1)
           (Canvas.mk 0 (lit 1920) (lit 1080))
           (desktop false GLNull true)) in
  (Particle.alpha (ticks 2 p) <= Particle.alpha (ticks 1 p))%Q /\
  (Particle.alpha (ticks 1 p) == 1 - 1 / (4000 / 16.67))%Q.
Proof.
  intro p.
  destruct (@alpha_fades_monotonically taylor_math (count 1)
              (Canvas.mk 0 (lit 1920) (lit 1080)) p 1)
    as (Hmono & Hlife & Hlin & _).
  - exists (desktop false GLNull true). reflexivity.
  - split; [exact Hmono|]. apply Hlin. rewrite Hlife. reflexivity.
Defined.

(** [fire_without_canvas_is_noop] at the first render, with reduced motion
    on: the state is untouched, the console included. *)
Lemma fire_without_canvas_is_noop_witness :
  let w : World.t float := first_render (desktop true GLNull true) in
  fired (count 100) w = Some w.
Proof.
  intro w.
  destruct (@fire_without_canvas_is_noop float binary64 taylor_math
              false 200%nat (count 100) w)
    as (Hf & _).
  - reflexivity.
  - exact Hf.
Defined.

(* ------------------------------------------------------------------ *)
(** * Further properties of the code *)

Section More.

Context {num : Type} {NUM : JsNumber num} {MATH : JsMath num}.

Local Open Scope js_scope.

Implicit Type w : World.t num.
Implicit Type c : Canvas.t num.

(** *** Handles *)

Lemma fire_handles (isActive : bool) (fuel : nat)
  (options : ConfettiOptions.t num) w w' c :
  Hook.canvasRef (World.refs w) = Some c ->
  Browser.reducedMotion (World.page w) = false ->
  fire isActive fuel options w = Some w' ->
  Browser.nextHandle (World.page w')
  = (if isActive then Browser.nextHandle (World.page w)
     else S (Browser.nextHandle (World.page w))) /\
  Hook.rafRef (World.refs w')
  = (if isActive then Hook.rafRef (World.refs w)
     else Some (Browser.nextHandle (World.page w))).
Proof.
  intros Ec Er Hf. unfold fire in Hf. rewrite Ec in Hf.
  unfold browser, matchMedia_reduced_motion in Hf. rewrite Er in Hf.
  cbn [World.page World.refs] in Hf.
  destruct (spawn _ _ _ _ _ _) as [[batch page]|] eqn:Es; [|discriminate].
  apply spawn_spec with (P := fun _ => True) in Es.
  - destruct Es as (batch' & n & -> & _ & ->).
    destruct w as [b h].
    destruct isActive; cbn in Hf; injection Hf as <-; cbn; split; reflexivity.
  - intro b0. apply new_particle_page.
  - intro b0. exact I.
Qed.

Lemma animate_handles w c :
  Hook.canvasRef (World.refs w) = Some c ->
  Browser.context2d (World.page w) = true ->
  Browser.nextHandle (World.page (exec animate w))
  = (match survivors c (pool w) with
     | [] => Browser.nextHandle (World.page w)
     | _ :: _ => S (Browser.nextHandle (World.page w))
     end) /\
  Hook.rafRef (World.refs (exec animate w))
  = (match survivors c (pool w) with
     | [] => Hook.rafRef (World.refs w)
     | _ :: _ => Some (Browser.nextHandle (World.page w))
     end) /\
  Browser.reducedMotion (World.page (exec animate w))
  = Browser.reducedMotion (World.page w).
Proof.
  destruct w as [b h]. unfold pool. cbn. intros Ec Ex.
  unfold exec, animate, bind, read, write, browser, getContext_2d, clearRect.
  cbn. rewrite Ec. cbn. rewrite Ex. cbn. rewrite filter_particles_spec. cbn.
  destruct (survivors c (Hook.particlesRef h)) as [|q kept]; cbn;
    split; try split; reflexivity.
Qed.

Lemma run_frame_two w (h1 h2 : nat) :
  pending w = [h1; h2] ->
  exec run_frame w
  = exec animate
      (exec animate
         (World.mk
            (Browser.set_frameRequests [] (Browser.nextHandle (World.page w))
               (World.page w))
            (World.refs w))).
Proof.
  destruct w as [b h]. unfold pending. cbn [World.page World.refs]. intro E.
  unfold run_frame. rewrite exec_bind.
  unfold browser, take_frame_requests. cbn -[animate callbacks].
  rewrite E. cbn [List.length callbacks].
  rewrite exec_bind. rewrite exec_bind. reflexivity.
Qed.

Lemma cleanup_effect w :
  World.refs (exec cleanup w) = World.refs w /\
  Browser.reducedMotion (World.page (exec cleanup w))
  = Browser.reducedMotion (World.page w) /\
  pending (exec cleanup w)
  = (match Hook.rafRef (World.refs w) with
     | Some handle =>
         if truthy handle
         then filter (fun h => negb (Nat.eqb h handle)) (pending w)
         else pending w
     | None => pending w
     end).
Proof.
  destruct w as [b h]. destruct h as [cr gr ps rr ia].
  unfold exec, cleanup, bind, read, browser, body_contains, removeChild,
    cancelAnimationFrame, pending. cbn.
  destruct cr as [c|]; cbn;
    [destruct (existsb (Nat.eqb (Canvas.element c)) (Browser.body b)); cbn|].
  all: destruct rr as [handle|]; cbn; [destruct (truthy handle)|]; cbn.
  all: split; [reflexivity | split; reflexivity].
Qed.

Lemma filter_out_absent (e : nat) (l : list nat) :
  existsb (Nat.eqb e) (filter (fun x => negb (Nat.eqb x e)) l) = false.
Proof.
  induction l as [|x l IH]; [reflexivity|]. cbn.
  destruct (Nat.eqb x e) eqn:E; cbn; [exact IH|].
  rewrite Nat.eqb_sym, E. exact IH.
Qed.

Lemma lifecycle_requested_is_last w : lifecycle w -> requested_is_last w.
Proof.
  induction 1 as [b Ex Ef | w w' fuel options Hl IH Hf | w Hl IH | w r Hl IH].
  - destruct (mount_effect_first b) as (_ & _ & _ & Hp & _).
    intros handle Eh. rewrite Hp in Eh. unfold pending in Eh. cbn in Eh.
    rewrite Ef in Eh. discriminate.
  - destruct (lifecycle_driven Hl) as ((c & Ec) & _ & _ & Hoff).
    destruct (Browser.reducedMotion (World.page w)) eqn:Er.
    + rewrite (fire_reduced_motion _ _ _ w Ec Er) in Hf. injection Hf as <-.
      exact IH.
    + destruct (fire_spawns _ _ _ w Ec Er Hf) as (_ & _ & _ & Hq & _).
      destruct (fire_handles _ _ _ w Ec Er Hf) as (_ & Hr).
      intros handle Eh. rewrite Hq in Eh. rewrite Hr.
      destruct (Hook.isActive (World.refs w)) eqn:Ea.
      * now apply IH.
      * destruct (Hoff eq_refl) as (Ep & _). rewrite Ep in Eh.
        now injection Eh as <-.
  - destruct (lifecycle_driven Hl) as ((c & Ec) & Ex & Hon & Hoff).
    destruct (Hook.isActive (World.refs w)) eqn:Ea.
    + destruct (Hon eq_refl) as (h0 & Eh0).
      rewrite (run_frame_one w Eh0).
      set (w0 := World.mk _ _).
      assert (Ec0 : Hook.canvasRef (World.refs w0) = Some c) by exact Ec.
      assert (Ex0 : Browser.context2d (World.page w0) = true)
        by (destruct w as [[] ?]; exact Ex).
      destruct (animate_pass w0 Ec0 Ex0) as (_ & Hq & _).
      destruct (animate_handles w0 Ec0 Ex0) as (_ & Hr & _).
      assert (E0 : pending w0 = []) by (destruct w as [[] ?]; reflexivity).
      intros handle Eh. rewrite Hq, E0 in Eh. rewrite Hr.
      destruct (survivors c (pool w0)); [discriminate|].
      now injection Eh as <-.
    + destruct (Hoff eq_refl) as (Ep & _). rewrite (run_frame_idle w Ep).
      exact IH.
  - destruct w as [[] ?]. exact IH.
Qed.

(** *** What the driver draws *)

(** X1.  After a pass of the driver the canvas shows exactly the pool: what
    was drawn before is cleared, and every particle that stays is drawn
    once, in pool order, at its updated position, rotation, alpha and
    colour. *)
Theorem driver_draws_the_pool w c :
  Hook.canvasRef (World.refs w) = Some c ->
  Browser.context2d (World.page w) = true ->
  Browser.painted (World.page (exec animate w))
  = map sprite (pool (exec animate w)) /\
  (forall q, In q (pool (exec animate w)) ->
             exists s, In s (Browser.painted (World.page (exec animate w))) /\
                       Sprite.translate s = (Particle.x q, Particle.y q) /\
                       Sprite.rotate s = Particle.rotation q /\
                       Sprite.globalAlpha s = Particle.alpha q /\
                       Sprite.fillStyle s
                       = (Particle.hue q, Particle.saturation q,
                          Particle.lightness q)).
Proof.
  intros Ec Ex. destruct (animate_pass w Ec Ex) as (Hp & _ & _ & Hd & _).
  rewrite Hd, Hp. split; [reflexivity|].
  intros q Hq. exists (sprite q). split; [now apply in_map|].
  repeat split.
Qed.

(** *** Two driver loops *)

(** X2.  On a hook that has its canvas, on a page with reduced motion off
    and a 2D context for the canvas, and with no frame callback requested:
    when [fire] is called twice through callbacks that both captured
    [isActive = false] (two calls in one handler, or a callback kept from
    an earlier render), each call requests a frame callback.  The next
    frame then runs the driver twice, so every particle is updated twice in
    that frame, and as long as particles remain both callbacks are
    requested again. *)
Theorem stale_callback_starts_second_driver (fuel : nat)
  (o1 o2 : ConfettiOptions.t num) w w1 w2 c :
  Hook.canvasRef (World.refs w) = Some c ->
  Browser.reducedMotion (World.page w) = false ->
  Browser.context2d (World.page w) = true ->
  pending w = [] ->
  fire false fuel o1 w = Some w1 ->
  fire false fuel o2 w1 = Some w2 ->
  pending w2
  = [Browser.nextHandle (World.page w);
     S (Browser.nextHandle (World.page w))] /\
  pool (exec run_frame w2) = survivors c (survivors c (pool w2)) /\
  (pool (exec run_frame w2) <> [] ->
   pending (exec run_frame w2)
   = [S (S (Browser.nextHandle (World.page w)));
      S (S (S (Browser.nextHandle (World.page w))))]).
Proof.
  intros Ec Er Ex Ep Hf1 Hf2.
  destruct (fire_spawns _ _ _ w Ec Er Hf1)
    as (b1 & _ & _ & Hq1 & _ & Ec1 & Ex1 & _ & Er1).
  destruct (fire_handles _ _ _ w Ec Er Hf1) as (Hn1 & _).
  destruct (fire_spawns _ _ _ w1 Ec1 Er1 Hf2)
    as (b2 & _ & _ & Hq2 & _ & Ec2 & Ex2 & _ & _).
  destruct (fire_handles _ _ _ w1 Ec1 Er1 Hf2) as (Hn2 & _).
  rewrite Hq1, Ep in Hq2. rewrite Hn1 in Hq2, Hn2. cbn [app] in Hq2.
  rewrite Ex1, Ex in Ex2.
  split; [exact Hq2|].
  rewrite (run_frame_two w2 Hq2).
  set (w0 := World.mk _ (World.refs w2)).
  assert (Ec0 : Hook.canvasRef (World.refs w0) = Some c) by exact Ec2.
  assert (Ex0 : Browser.context2d (World.page w0) = true)
    by (destruct w2 as [[] ?]; exact Ex2).
  assert (Ep0 : pending w0 = []) by (destruct w2 as [[] ?]; reflexivity).
  assert (En0 : Browser.nextHandle (World.page w0)
                = S (S (Browser.nextHandle (World.page w))))
    by (destruct w2 as [[] ?]; exact Hn2).
  assert (El0 : pool w0 = pool w2) by reflexivity.
  destruct (animate_pass w0 Ec0 Ex0) as (Hp & Hq & _ & _ & Ec' & Ex' & _).
  destruct (animate_handles w0 Ec0 Ex0) as (Hn & _).
  destruct (animate_pass (exec animate w0) Ec' Ex') as (Hp' & Hq' & _).
  rewrite Hp', Hp, El0. split; [reflexivity|].
  intro Hne. rewrite Hq', Hp, Hq, Hn, Ep0, En0, El0.
  destruct (survivors c (pool w2)) as [|q kept]; [now cbn in Hne|].
  destruct (survivors c (q :: kept)) as [|q' kept']; [contradiction|].
  reflexivity.
Qed.

(** *** Unmounting *)

(** X3.  The cleanup takes the canvas out of the document but leaves
    [canvasRef] set, so a mount effect that runs after it (React's strict
    mode runs mount, cleanup, mount) creates nothing: the hook keeps a
    canvas that is no longer in the document, and [fire] still gets past
    its guards exactly when it did before. *)
Theorem canvas_not_restored_after_cleanup w c :
  Hook.canvasRef (World.refs w) = Some c ->
  let w' := exec mount_effect (exec cleanup w) in
  Hook.canvasRef (World.refs w') = Some c /\
  existsb (Nat.eqb (Canvas.element c)) (Browser.body (World.page w')) = false /\
  emits w' = emits w.
Proof.
  intros Ec w'.
  destruct (cleanup_canvas w) as (Hc & Hb).
  destruct (cleanup_effect w) as (_ & Hr & _).
  rewrite Ec in Hc, Hb.
  assert (Ew : w' = exec cleanup w) by (apply (mount_effect_again _ Hc)).
  rewrite Ew. split; [exact Hc|]. split.
  - rewrite Hb. apply filter_out_absent.
  - unfold emits. now rewrite Hc, Ec, Hr.
Qed.

(** X4.  In the life of a mounted hook ([lifecycle]), with the non-zero
    handles that [requestAnimationFrame] returns, the cleanup cancels the
    driver: no frame callback is requested after it.  The refs are left as
    they were, so the pool keeps its particles and [isActive] its value. *)
Theorem cleanup_cancels_the_driver w :
  lifecycle w ->
  (forall handle, In handle (pending w) -> handle <> 0%nat) ->
  pending (exec cleanup w) = [] /\
  World.refs (exec cleanup w) = World.refs w.
Proof.
  intros Hl Hnz.
  destruct (cleanup_effect w) as (Hrefs & _ & Hp).
  split; [|exact Hrefs]. rewrite Hp.
  destruct (lifecycle_driven Hl) as (_ & _ & Hon & Hoff).
  destruct (Hook.isActive (World.refs w)) eqn:Ea.
  - destruct (Hon eq_refl) as (handle & Eh).
    pose proof (lifecycle_requested_is_last Hl) as Hlast.
    rewrite (Hlast handle Eh).
    assert (Ht : truthy handle = true).
    { unfold truthy. apply negb_true_iff. apply Nat.eqb_neq.
      apply Hnz. rewrite Eh. now left. }
    rewrite Ht, Eh. cbn. now rewrite Nat.eqb_refl.
  - destruct (Hoff eq_refl) as (Ep & _). rewrite Ep.
    destruct (Hook.rafRef (World.refs w)) as [handle|]; [|reflexivity].
    destruct (truthy handle); reflexivity.
Qed.

(** *** Options that are not read *)

(** X5.  [fire] reads of the [shapes] option only its length, and never
    reads [colors]: two shape lists of the same length, and any two
    [colors], lead to the same particles and the same state. *)
Theorem fire_reads_only_the_length_of_shapes (isActive : bool) (fuel : nat)
  (options : ConfettiOptions.t num) (shapes1 shapes2 : list ShapeName)
  (colors : option (list string)) w :
  List.length shapes1 = List.length shapes2 ->
  fire isActive fuel (with_shapes (Some shapes1) options) w
  = fire isActive fuel (with_shapes (Some shapes2) options) w /\
  fire isActive fuel (with_colors colors options) w
  = fire isActive fuel options w.
Proof.
  intro El. split; [|reflexivity].
  unfold fire, with_shapes. cbn [ConfettiOptions.particleCount
    ConfettiOptions.duration ConfettiOptions.spread
    ConfettiOptions.startVelocity ConfettiOptions.iridescent
    ConfettiOptions.origin ConfettiOptions.shapes default].
  unfold new_particle. rewrite El. reflexivity.
Qed.

(** *** The driver where it has a 2D context *)

(** X14.  For a mounted hook that obtains a 2D context and
    whose [fire] is each time the callback of the latest render: whenever
    the pool is non-empty exactly one frame callback is requested; none is
    requested exactly when the driver is marked idle, and then the pool is
    empty and a frame changes nothing; and a frame that leaves the pool
    empty leaves no callback requested (and conversely). *)
Theorem driver_scheduled_while_active (w : World.t num) :
  lifecycle w ->
  (pool w <> [] -> exists handle, pending w = [handle]) /\
  (pending w = [] <-> Hook.isActive (World.refs w) = false) /\
  (pending w = [] -> pool w = [] /\ exec run_frame w = w) /\
  (pool (exec run_frame w) = [] <-> pending (exec run_frame w) = []).
Proof.
  intro Hl. pose proof (lifecycle_driven Hl) as Hd.
  pose proof (lifecycle_driven (lifecycle_frame Hl)) as Hd'.
  destruct Hd as (Hc & Hx & Hon & Hoff).
  assert (Hidle : pending w = [] -> Hook.isActive (World.refs w) = false).
  { intro Ep. destruct (Hook.isActive (World.refs w)); [|reflexivity].
    destruct (Hon eq_refl) as (handle & Eh). congruence. }
  split; [|split; [|split]].
  - intro Hne. destruct (Hook.isActive (World.refs w)) eqn:Ea.
    + now apply Hon.
    + destruct (Hoff eq_refl) as (_ & Ep). contradiction.
  - split; [exact Hidle|]. intro Ea. now destruct (Hoff Ea).
  - intro Ep. split.
    + now destruct (Hoff (Hidle Ep)).
    + now apply run_frame_idle.
  - split.
    + apply frame_stops_when_empty. exact (lifecycle_driven Hl).
    + destruct Hd' as (_ & _ & Hon' & Hoff'). intro Ep.
      destruct (Hook.isActive (World.refs (exec run_frame w))) eqn:Ea.
      * destruct (Hon' eq_refl) as (handle & Eh). congruence.
      * now destruct (Hoff' eq_refl).
Qed.

(** X15.  A pass of the driver that has its canvas and obtains a 2D
    context replaces the pool by the updated particles that stay, and the
    update of a particle is, in this order: [vy] grows by the constant 0.3,
    [x] by [vx], [y] by the new [vy], [rotation] by [rotationSpeed] and
    [life] by 1.  The [gravity] option is never read: changing it changes
    nothing in what [fire] does. *)
Theorem driver_step_order (w : World.t num) (c : Canvas.t num) :
  Hook.canvasRef (World.refs w) = Some c ->
  Browser.context2d (World.page w) = true ->
  pool (exec animate w) = survivors c (pool w) /\
  (forall q, In q (pool (exec animate w)) ->
             exists p, In p (pool w) /\ q = fst (tick c p)) /\
  (forall p,
      let p' := fst (tick c p) in
      Particle.vy p' = Particle.vy p + lit 0.3 /\
      Particle.x p' = Particle.x p + Particle.vx p /\
      Particle.y p' = Particle.y p + (Particle.vy p + lit 0.3) /\
      Particle.rotation p' = Particle.rotation p + Particle.rotationSpeed p /\
      Particle.life p' = Particle.life p + lit 1) /\
  (forall (isActive : bool) (fuel : nat) (options : ConfettiOptions.t num)
          (gravity : option num),
      fire isActive fuel (ConfettiOptions.set_gravity gravity options) w
      = fire isActive fuel options w).
Proof.
  intros Ec Ex. destruct (animate_pass w Ec Ex) as (Hp & _).
  split; [exact Hp|]. split; [|split].
  - intros q Hq. rewrite Hp in Hq. apply survivors_in in Hq.
    destruct Hq as (p & Hin & -> & _). exists p.
    rewrite tick_update. auto.
  - intros p p'. subst p'. rewrite tick_update.
    destruct (update_physics p) as (Hvy & Hx & Hy & Hr & Hl).
    rewrite Hvy in Hy. auto.
  - intros. reflexivity.
Qed.

End More.

Section MoreExact.

Context {MATH : JsMath Q}.

(** *** The loop of [fire] for any count *)

Lemma below_count (k : nat) (q : Q) :
  (inject_Z (Z.of_nat k) < q)%Q <-> (k < Z.to_nat (Qceiling q))%nat.
Proof.
  split; intro H.
  - assert (Hc : (Z.of_nat k < Qceiling q)%Z).
    { rewrite Zlt_Qlt. eapply Qlt_le_trans; [exact H | apply Qle_ceiling]. }
    lia.
  - assert (Hc : (Z.of_nat k <= Qceiling q - 1)%Z) by lia.
    rewrite Zle_Qle in Hc.
    eapply Qle_lt_trans; [exact Hc | apply Qceiling_lt].
Qed.

Lemma spawn_rounds_up (make : State (Browser.t Q) (Particle.t Q)) (q : Q) :
  forall (d k fuel : nat) (i : Q) (acc : list (Particle.t Q))
    (b : Browser.t Q),
    (i == inject_Z (Z.of_nat k))%Q ->
    (k <= Z.to_nat (Qceiling q))%nat ->
    (k + d = Z.to_nat (Qceiling q))%nat ->
    (d <= fuel)%nat ->
    exists batch b',
      spawn fuel make q i acc b = Some (acc ++ batch, b') /\
      List.length batch = d.
Proof.
  induction d as [|d IH]; intros k fuel i acc b Hi Hk Hd Hfuel.
  - assert (E : nlt i q = false).
    { destruct (nlt i q) eqn:E; [|reflexivity].
      apply QFacts.ltb_lt in E. rewrite Hi in E. apply below_count in E.
      lia. }
    exists [], b. rewrite app_nil_r.
    destruct fuel; cbn [spawn]; rewrite E; split; reflexivity.
  - assert (E : nlt i q = true).
    { apply QFacts.ltb_lt. rewrite Hi. apply below_count. lia. }
    destruct fuel as [|fuel]; [lia|]. cbn [spawn]. rewrite E.
    destruct (make b) as [p b1].
    destruct (IH (S k) fuel (nadd i (lit 1)) (acc ++ [p]) b1)
      as (batch & b' & Es & Hl).
    + cbn. rewrite Hi. apply inject_succ.
    + lia.
    + lia.
    + lia.
    + exists (p :: batch), b'. rewrite Es, <- app_assoc. cbn.
      split; [reflexivity | now rewrite Hl].
Qed.

(** X6.  [particleCount] is any number: [fire] creates as many particles as
    there are integers [i >= 0] below it, that is the count rounded up, and
    none for a count of 0 or less.  Whatever the count, a callback that
    captured [isActive = false] marks the driver active and requests a
    frame callback, even when no particle was created. *)
Theorem fire_rounds_the_count_up (isActive : bool) (fuel : nat)
  (options : ConfettiOptions.t Q) (w : World.t Q) (c : Canvas.t Q) :
  let count :=
    Z.to_nat
      (Qceiling (default (lit 150) (ConfettiOptions.particleCount options))) in
  Hook.canvasRef (World.refs w) = Some c ->
  Browser.reducedMotion (World.page w) = false ->
  (count <= fuel)%nat ->
  exists w' batch,
    fire isActive fuel options w = Some w' /\
    pool w' = pool w ++ batch /\
    List.length batch = count /\
    pending w'
    = (if isActive then pending w
       else pending w ++ [Browser.nextHandle (World.page w)]) /\
    Hook.isActive (World.refs w')
    = (if isActive then Hook.isActive (World.refs w) else true).
Proof.
  intros count Ec Er Hfuel.
  assert (Hf : exists w' batch,
             fire isActive fuel options w = Some w' /\
             pool w' = pool w ++ batch /\ List.length batch = count).
  { unfold fire. rewrite Ec.
    unfold browser, matchMedia_reduced_motion. rewrite Er.
    cbn [World.page World.refs].
    match goal with
    | |- context [spawn fuel ?make ?q ?i [] ?b] =>
        destruct (@spawn_rounds_up make q count 0%nat fuel i [] b)
          as (batch & b' & Es & Hl);
          [reflexivity | lia | reflexivity | exact Hfuel | rewrite Es]
    end.
    cbn [app]. destruct w as [b h]. unfold pool.
    destruct isActive; cbn; eexists; exists batch;
      (split; [reflexivity | split; [reflexivity | exact Hl]]). }
  destruct Hf as (w' & batch & Hf & Hp & Hl).
  destruct (fire_spawns _ _ _ w Ec Er Hf) as (_ & _ & _ & Hq & Ha & _).
  exists w', batch. repeat split; assumption.
Qed.

(** *** The ranges of a new particle *)

Lemma spawn_spec_kept (make : State (Browser.t Q) (Particle.t Q))
  (I : Browser.t Q -> Prop) (P : Particle.t Q -> Prop) :
  (forall b, I b -> I (snd (make b)) /\ P (fst (make b))) ->
  forall (fuel : nat) (count i : Q) (acc out : list (Particle.t Q))
    (b b' : Browser.t Q),
    I b ->
    spawn fuel make count i acc b = Some (out, b') ->
    exists batch, out = acc ++ batch /\ Forall P batch.
Proof.
  intros Hmake. induction fuel as [|fuel IH];
    intros count i acc out b b' Hb.
  - cbn [spawn]. destruct (nlt i count); [discriminate|].
    intros [= <- <-]. exists []. rewrite app_nil_r. split; constructor.
  - cbn [spawn]. destruct (nlt i count).
    + destruct (Hmake b Hb) as (Hb1 & Hp).
      destruct (make b) as [p b1]. cbn in Hb1, Hp. intro Hs.
      apply IH in Hs; [|exact Hb1]. destruct Hs as (batch & -> & HF).
      exists (p :: batch). rewrite <- app_assoc. split; [reflexivity|].
      now constructor.
    + intros [= <- <-]. exists []. rewrite app_nil_r. split; constructor.
Qed.

Lemma floor_index (r : Q) (n : nat) :
  (0 <= r)%Q -> (r < 1)%Q ->
  (0 <= Qfloor (r * inject_Z (Z.of_nat n)))%Z /\
  ((0 < n)%nat -> (Qfloor (r * inject_Z (Z.of_nat n)) < Z.of_nat n)%Z).
Proof.
  intros H0 H1.
  assert (HN : (0 <= inject_Z (Z.of_nat n))%Q)
    by (change 0%Q with (inject_Z 0); rewrite <- Zle_Qle; lia).
  split.
  - rewrite <- (Qfloor_Z 0). apply Qfloor_resp_le.
    change (inject_Z 0) with 0%Q. nra.
  - intro Hn.
    assert (HN' : (0 < inject_Z (Z.of_nat n))%Q)
      by (change 0%Q with (inject_Z 0); rewrite <- Zlt_Qlt; lia).
    rewrite Zlt_Qlt.
    eapply Qle_lt_trans; [apply Qfloor_le|]. nra.
Qed.

(** X7.  With [Math.random()] in [[0, 1)], every particle [fire] creates has
    a scale from 0.75 to 1.25, a hue in [[0, 360)], and as shape a whole
    number that is a valid index of the shapes list (0 for an empty
    list). *)
Theorem new_particles_are_in_range (isActive : bool) (fuel : nat)
  (options : ConfettiOptions.t Q) (w w' : World.t Q) (c : Canvas.t Q) :
  unit_draws (World.page w) ->
  Hook.canvasRef (World.refs w) = Some c ->
  Browser.reducedMotion (World.page w) = false ->
  fire isActive fuel options w = Some w' ->
  exists batch,
    pool w' = pool w ++ batch /\
    Forall
      (fun p =>
         (0.75 <= Particle.scale p)%Q /\ (Particle.scale p <= 1.25)%Q /\
         (0 <= Particle.hue p)%Q /\ (Particle.hue p < 360)%Q /\
         exists i : nat,
           Particle.shape p = inject_Z (Z.of_nat i) /\
           (i <= List.length
                   (default [circle; square; triangle]
                      (ConfettiOptions.shapes options)) - 1)%nat)
      batch.
Proof.
  intros Hu Ec Er Hf. unfold fire in Hf. rewrite Ec in Hf.
  unfold browser, matchMedia_reduced_motion in Hf. rewrite Er in Hf.
  cbn [World.page World.refs] in Hf.
  destruct (spawn _ _ _ _ _ _) as [[out page]|] eqn:Es; [|discriminate].
  eapply spawn_spec_kept with (I := unit_draws) in Es.
  - destruct Es as (batch & -> & HF). exists batch. split; [|exact HF].
    destruct w as [b h]. unfold pool.
    destruct isActive; cbn in Hf; injection Hf as <-; reflexivity.
  - clear Es. intros b Hb. split.
    + destruct (new_particle_page
                  (Canvas.width c
                   * Point.x (default (Point.mk (lit 0.5) (lit 0.5))
                                (ConfettiOptions.origin options)))%js
                  (Canvas.height c
                   * Point.y (default (Point.mk (lit 0.5) (lit 0.5))
                                (ConfettiOptions.origin options)))%js
                  (default (lit 60) (ConfettiOptions.spread options))
                  (default (lit 30) (ConfettiOptions.startVelocity options))
                  (default (lit 4000) (ConfettiOptions.duration options))
                  (default true (ConfettiOptions.iridescent options))
                  (default [circle; square; triangle]
                     (ConfettiOptions.shapes options)) b) as (n & ->).
      intro k. exact (Hb k).
    + set (shapes := default [circle; square; triangle]
                       (ConfettiOptions.shapes options)).
      unfold unit_draws in Hb.
      destruct (default true (ConfettiOptions.iridescent options));
        cbn -[Qfloor Qmult Qplus Qminus Qle Qlt inject_Z Z.of_nat];
        cbn [nmul nadd nsub nfloor lit Q_number];
        repeat match goal with
               | |- context [Browser.randomSource b ?n] =>
                   let r := fresh "r" in
                   let H0 := fresh "H0" in
                   let H1 := fresh "H1" in
                   destruct (Hb n) as [H0 H1];
                   set (r := Browser.randomSource b n) in *;
                   clearbody r
               end;
        (split; [lra|]); (split; [lra|]); (split; [lra|]); (split; [lra|]).
      all: unfold QNumber.floor.
      all: match goal with
           | Hr0 : (0 <= ?r)%Q, Hr1 : (?r < 1)%Q
             |- context [Qfloor (?r * _)] =>
               destruct (floor_index (List.length shapes) Hr0 Hr1)
                 as (Hf0 & Hf1)
           end.
      all: match goal with
           | |- context [Qfloor ?x] => set (f := Qfloor x) in *
           end.
      all: exists (Z.to_nat f); split;
        [rewrite Z2Nat.id by exact Hf0; reflexivity|].
      all: destruct (List.length shapes) as [|n]; [|lia].
      all: subst f; cbn [Z.of_nat inject_Z]; rewrite Qmult_0_r;
        change 0%Q with (inject_Z 0); rewrite Qfloor_Z; cbn; lia.
  - exact Hu.
Qed.

(** *** The hue through the updates *)

Lemma rem_range (a b : Q) :
  (0 <= a)%Q -> (0 < b)%Q ->
  (0 <= QNumber.rem a b)%Q /\ (QNumber.rem a b < b)%Q.
Proof.
  intros Ha Hb. unfold QNumber.rem.
  assert (Ht : (0 <= a / b)%Q) by (apply Qle_shift_div_l; lra).
  assert (Etr : QNumber.Qtrunc (a / b) = Qfloor (a / b)).
  { unfold QNumber.Qtrunc. destruct (a / b)%Q as [n d] eqn:E.
    cbn [Qnum Qden Qfloor]. apply Z.quot_div_nonneg; [|reflexivity].
    unfold Qle in Ht. cbn in Ht. lia. }
  rewrite Etr.
  pose proof (Qfloor_le (a / b)) as Hlo.
  pose proof (Qlt_floor (a / b)) as Hhi.
  rewrite inject_Z_plus in Hhi.
  change (inject_Z 1) with 1%Q in Hhi.
  assert (Ea : (a == a / b * b)%Q) by (field; lra).
  set (t := (a / b)%Q) in *. set (F := inject_Z (Qfloor t)) in *.
  split; nra.
Qed.

(** X8.  A hue in [[0, 360)] stays in [[0, 360)] through every number of
    driver updates: the rainbow shift wraps around, so what is drawn always
    has a valid [hsl] hue. *)
Theorem hue_stays_in_range (p : Particle.t Q) (k : nat) :
  (0 <= Particle.hue p)%Q ->
  (Particle.hue p < 360)%Q ->
  (0 <= Particle.hue (ticks k p))%Q /\ (Particle.hue (ticks k p) < 360)%Q.
Proof.
  intros H0 H1. induction k as [|k (IH0 & IH1)]; cbn [ticks].
  - split; assumption.
  - destruct (update_color (ticks k p)) as (Eh & _). rewrite Eh.
    cbn [nadd nrem nlt lit Q_number].
    destruct (QNumber.ltb _ _); [|split; assumption].
    apply rem_range; lra.
Qed.

End MoreExact.

Section MoreFrames.

Context {num : Type} {NUM : JsNumber num} {MATH : JsMath num}.

Implicit Type w : World.t num.
Implicit Type c : Canvas.t num.

Lemma passes_in (k : nat) c (ps : list (Particle.t num))
  (q : Particle.t num) :
  In q (passes k c ps) ->
  exists p,
    In p ps /\ q = ticks k p /\
    forall j : nat, (1 <= j <= k)%nat -> gone c (ticks j p) = false.
Proof.
  revert q. induction k as [|k IH]; intros q Hq; cbn [passes] in Hq.
  - exists q. split; [exact Hq|]. split; [reflexivity|]. intros j Hj. lia.
  - apply survivors_in in Hq. destruct Hq as (p' & Hin & -> & Hg).
    destruct (IH p' Hin) as (p & Hp & -> & Hj).
    exists p. split; [exact Hp|]. split; [reflexivity|].
    intros j Hle. destruct (Nat.eq_dec j (S k)) as [-> | Hne].
    + exact Hg.
    + apply Hj. lia.
Qed.

Lemma passes_shift (k : nat) c (ps : list (Particle.t num)) :
  passes k c (survivors c ps) = survivors c (passes k c ps).
Proof.
  induction k as [|k IH]; cbn [passes]; [reflexivity | now rewrite IH].
Qed.

Lemma frames_last (k : nat) w :
  frames (S k) w = exec run_frame (frames k w).
Proof.
  revert w. induction k as [|k IH]; intro w; [reflexivity|].
  change (frames (S (S k)) w) with (frames (S k) (exec run_frame w)).
  rewrite IH. reflexivity.
Qed.

Lemma lifecycle_frames (k : nat) w : lifecycle w -> lifecycle (frames k w).
Proof.
  revert w. induction k as [|k IH]; intros w Hl; [exact Hl|].
  cbn [frames]. apply IH. now apply lifecycle_frame.
Qed.

Lemma lifecycle_frame_pool w c :
  lifecycle w ->
  Hook.canvasRef (World.refs w) = Some c ->
  pool (exec run_frame w) = survivors c (pool w).
Proof.
  intros Hl Ec. destruct (lifecycle_driven Hl) as (_ & Ex & Hon & Hoff).
  destruct (Hook.isActive (World.refs w)) eqn:Ea.
  - destruct (Hon eq_refl) as (handle & Eh).
    rewrite (run_frame_one w Eh).
    set (w0 := World.mk _ _).
    assert (Ec0 : Hook.canvasRef (World.refs w0) = Some c) by exact Ec.
    assert (Ex0 : Browser.context2d (World.page w0) = true)
      by (destruct w as [[] ?]; exact Ex).
    destruct (animate_pass w0 Ec0 Ex0) as (Hp & _). exact Hp.
  - destruct (Hoff eq_refl) as (Eh & Ep).
    rewrite (run_frame_idle w Eh), Ep. reflexivity.
Qed.

Lemma lifecycle_frames_pool (k : nat) w c :
  lifecycle w ->
  Hook.canvasRef (World.refs w) = Some c ->
  pool (frames k w) = passes k c (pool w).
Proof.
  revert w. induction k as [|k IH]; intros w Hl Ec; [reflexivity|].
  cbn [frames passes].
  destruct (run_frame_keeps_canvas w) as (_ & Hc). rewrite Ec in Hc.
  rewrite (IH _ (lifecycle_frame Hl) Hc).
  rewrite (lifecycle_frame_pool Hl Ec). apply passes_shift.
Qed.

(** X16.  In the life of a mounted hook ([lifecycle]), [k] frames without
    a call of [fire] between them pass the pool through the filter exactly
    [k] times.  Every particle that is in the pool afterwards is one of the
    particles that were there before, updated exactly [k] times, and after
    each of these updates it was neither more than 100 px below the canvas
    nor at an alpha of 0 or less. *)
Theorem one_update_per_frame (k : nat) w c :
  lifecycle w ->
  Hook.canvasRef (World.refs w) = Some c ->
  pool (frames k w) = passes k c (pool w) /\
  (forall q,
      In q (pool (frames k w)) ->
      exists p,
        In p (pool w) /\ q = ticks k p /\
        forall j : nat, (1 <= j <= k)%nat -> gone c (ticks j p) = false).
Proof.
  intros Hl Ec. pose proof (lifecycle_frames_pool k Hl Ec) as Hp.
  split; [exact Hp|]. intros q Hq. rewrite Hp in Hq.
  now apply passes_in.
Qed.

(** *** The preference and a running burst *)

Lemma animate_preference (reduce : bool) w :
  exec animate (with_preference reduce w)
  = with_preference reduce (exec animate w).
Proof.
  destruct w as [b h]. destruct h as [cr gr ps rr ia].
  destruct b as [iw ih rm gl cx bd ne fr nh rs ru co mq pa].
  unfold with_preference, exec, animate, bind, read, write, browser,
    getContext_2d, clearRect.
  cbn. destruct cr as [c|]; [|reflexivity]. cbn.
  destruct cx; [|reflexivity]. cbn.
  rewrite !filter_particles_spec. cbn.
  destruct (survivors c ps); reflexivity.
Qed.

Lemma callbacks_preference (n : nat) (reduce : bool) w :
  exec (callbacks n) (with_preference reduce w)
  = with_preference reduce (exec (callbacks n) w).
Proof.
  revert w. induction n as [|n IH]; intro w; cbn [callbacks].
  - reflexivity.
  - rewrite !exec_bind. fold (exec animate (with_preference reduce w)).
    fold (exec animate w). rewrite animate_preference. apply IH.
Qed.

(** X13.  Only [fire] reads the reduced-motion preference.  A frame does
    the same to the pool, the requested callbacks and the canvas whether
    the preference is on or off, so a burst that is running when the user
    turns reduced motion on runs to its end. *)
Theorem running_burst_ignores_preference (reduce : bool) w :
  exec run_frame (with_preference reduce w)
  = with_preference reduce (exec run_frame w) /\
  pool (exec run_frame (with_preference reduce w)) = pool (exec run_frame w) /\
  pending (exec run_frame (with_preference reduce w))
  = pending (exec run_frame w).
Proof.
  assert (E : exec run_frame (with_preference reduce w)
              = with_preference reduce (exec run_frame w)).
  { unfold run_frame. rewrite !exec_bind.
    destruct w as [b h].
    destruct b as [iw ih rm gl cx bd ne fr nh rs ru co mq pa].
    unfold browser, take_frame_requests, with_preference at 1 2.
    cbn -[callbacks with_preference].
    apply (callbacks_preference (List.length fr) reduce
             (World.mk
                (Browser.mk iw ih rm gl cx bd ne [] nh rs ru co mq pa) h)). }
  rewrite E. split; [reflexivity|].
  destruct (exec run_frame w) as [[] ?]. split; reflexivity.
Qed.

(** *** [ConfettiButton] *)

(** X11.  A click on a [ConfettiButton] starts every particle of its batch
    at [canvas.width * ((left + width / 2) / window.innerWidth)] and
    [canvas.height * ((top + height / 2) / window.innerHeight)], computed
    in this order from the button's rectangle: the centre of the button, up
    to rounding, as long as the canvas has the size of the window.  An
    [origin] in [confettiOptions] is overridden: the click does the same
    whatever it is.  The [onClick] of the props runs after [fire], on the
    state [fire] leaves, whether or not [fire] created particles. *)
Theorem click_bursts_from_the_button (rect : DOMRect.t num)
  (confettiOptions : option (ConfettiOptions.t num))
  (isActive : bool) (fuel : nat) w w' :
  handleClick rect confettiOptions None isActive fuel w = Some w' ->
  (forall c,
      Hook.canvasRef (World.refs w) = Some c ->
      Browser.reducedMotion (World.page w) = false ->
      exists batch,
        pool w' = pool w ++ batch /\
        Forall
          (fun p =>
             Particle.x p
             = nmul (Canvas.width c)
                 (ndiv (nadd (DOMRect.left rect)
                          (ndiv (DOMRect.width rect) (lit 2)))
                    (Browser.innerWidth (World.page w))) /\
             Particle.y p
             = nmul (Canvas.height c)
                 (ndiv (nadd (DOMRect.top rect)
                          (ndiv (DOMRect.height rect) (lit 2)))
                    (Browser.innerHeight (World.page w))))
          batch) /\
  (forall origin : option (Point.t num),
      handleClick rect (option_map (with_origin origin) confettiOptions)
        None isActive fuel w
      = Some w') /\
  (forall callback : State (World.t num) unit,
      handleClick rect confettiOptions (Some callback) isActive fuel w
      = Some (exec callback w')).
Proof.
  intro Hc. unfold handleClick in *.
  destruct (fire _ _ _ w) as [w1|] eqn:Hf; [|discriminate].
  injection Hc as <-. split; [|split].
  - intros c Ec Er.
    destruct (fire_spawns _ _ _ w Ec Er Hf) as (batch & Hp & Hs & _).
    exists batch. split; [exact Hp|].
    eapply Forall_impl; [|exact Hs].
    intros p (b & ->). unfold maker.
    match goal with
    | |- context [new_particle ?cx ?cy ?sp ?v ?d ?i ?sh b] =>
        destruct (new_particle_start cx cy sp v d i sh b)
          as (Hx & Hy & _);
          rewrite Hx, Hy
    end.
    split; reflexivity.
  - intro origin.
    assert (E : forall pt,
               spread_with_origin
                 (option_map (with_origin origin) confettiOptions) pt
               = spread_with_origin confettiOptions pt)
      by (intro pt; destruct confettiOptions; reflexivity).
    rewrite E, Hf. reflexivity.
  - intro callback. reflexivity.
Qed.

End MoreFrames.

Section MoreBursts.

Context {MATH : JsMath Q}.

(** *** [Confetti] *)

(** X12.  [<Confetti trigger />] with [trigger] true fires more than once.
    The effect depends on [fire], and [fire] is a new function whenever
    [isActive] has changed; so on a page with a canvas and reduced motion
    off, the effect runs at the first commit (a batch of [n] particles,
    [isActive] becomes true) and again at the commit that follows (a second
    batch of [n]); after that it is quiet until [isActive] changes.  And
    each later commit at which [isActive] differs from the one before, as
    when the driver has come to rest, adds a batch again. *)
Theorem confetti_fires_at_every_flip (options : option (ConfettiOptions.t Q))
  (fuel n : nat) (b : Browser.t Q) :
  (default (lit 150)
     (ConfettiOptions.particleCount (default ConfettiOptions.empty options))
   == inject_Z (Z.of_nat n))%Q ->
  (n <= fuel)%nat ->
  Browser.reducedMotion b = false ->
  (exists w1 d1 w2 d2,
      Confetti_mount true options fuel b = Some (w1, d1) /\
      Confetti_update d1 true options false fuel w1 = Some (w2, d2) /\
      List.length (pool w1) = n /\
      List.length (pool w2) = (n + n)%nat /\
      Confetti_update d2 true options false fuel w2 = Some (w2, d2)) /\
  (forall (previous : Dependencies) (w : World.t Q) (c : Canvas.t Q),
      Hook.canvasRef (World.refs w) = Some c ->
      Browser.reducedMotion (World.page w) = false ->
      seen_isActive previous = negb (Hook.isActive (World.refs w)) ->
      exists w' d' batch,
        Confetti_update previous true options false fuel w = Some (w', d') /\
        pool w' = pool w ++ batch /\
        List.length batch = n).
Proof.
  intros Hn Hfuel Er. split.
  - unfold Confetti_mount, Confetti_effect.
    set (w0 := exec mount_effect (first_render b)).
    destruct (mount_effect_first b) as (Ec0 & _ & _ & _ & Hp0 & Ha0).
    fold w0 in Ec0, Hp0, Ha0.
    assert (Er0 : Browser.reducedMotion (World.page w0) = false).
    { unfold w0. destruct b as [iw ih rm gl cx bd ne fr nh rs ru co mq pa].
      cbn in Er. destruct gl; exact Er. }
    destruct (fire_count false (default ConfettiOptions.empty options)
                w0 Ec0 Er0 Hn Hfuel) as (w1 & b1 & Hf1 & Hp1 & Hl1).
    destruct (fire_spawns _ _ _ w0 Ec0 Er0 Hf1)
      as (_ & _ & _ & _ & Ha1 & Ec1 & _ & _ & Er1).
    destruct (fire_count true (default ConfettiOptions.empty options)
                w1 Ec1 Er1 Hn Hfuel) as (w2 & b2 & Hf2 & Hp2 & Hl2).
    destruct (fire_spawns _ _ _ w1 Ec1 Er1 Hf2)
      as (_ & _ & _ & _ & Ha2 & _).
    rewrite Hf1.
    exists w1, (Build_Dependencies true false),
      w2, (Build_Dependencies true true).
    split; [reflexivity|].
    unfold Confetti_update, Confetti_effect.
    cbn [seen_trigger seen_isActive]. rewrite Ha1.
    cbn [Bool.eqb negb orb]. rewrite Hf2.
    split; [reflexivity|].
    split; [rewrite Hp1, Hp0; exact Hl1|].
    split; [rewrite Hp2, Hp1, Hp0, length_app; cbn [app]; lia|].
    rewrite Ha2, Ha1. reflexivity.
  - intros previous w c Ec Erw Hflip.
    destruct (fire_count (Hook.isActive (World.refs w))
                (default ConfettiOptions.empty options) w Ec Erw Hn Hfuel)
      as (w' & batch & Hf & Hp & Hl).
    unfold Confetti_update, Confetti_effect. rewrite Hflip.
    assert (E : negb (Bool.eqb true (seen_trigger previous))
                || negb (Bool.eqb (Hook.isActive (World.refs w))
                           (negb (Hook.isActive (World.refs w))))
                || false = true).
    { destruct (Hook.isActive (World.refs w)),
        (seen_trigger previous); reflexivity. }
    rewrite E, Hf. eexists. eexists. exists batch.
    split; [reflexivity|]. split; assumption.
Qed.

End MoreBursts.

(* ------------------------------------------------------------------ *)
(** * The further properties on concrete inputs *)

(** [driver_scheduled_while_active] for the state that mounting and one
    call of [fire({ particleCount: 1 })] lead to. *)
Lemma driver_scheduled_while_active_witness :
  let w : World.t float :=
    result (fired (count 1) (mounted false GLNull true))
      (mounted false GLNull true) in
  (pool w <> [] -> exists handle, pending w = [handle]) /\
  (pending w = [] <-> Hook.isActive (World.refs w) = false) /\
  (pending w = [] ->
   pool w = [] /\ exec (run_frame (MATH := taylor_math)) w = w) /\
  (pool (exec (run_frame (MATH := taylor_math)) w) = [] <->
   pending (exec (run_frame (MATH := taylor_math)) w) = []).
Proof.
  intro w.
  apply (@driver_scheduled_while_active float binary64 taylor_math w).
  apply (@lifecycle_fire float binary64 taylor_math
           (mounted false GLNull true) w 200%nat (count 1)).
  - apply (@lifecycle_mount float binary64 taylor_math
             (desktop false GLNull true)); reflexivity.
  - vm_compute. reflexivity.
Defined.

(** [driver_step_order] for the first pass of the driver after a call of
    [fire({ particleCount: 1 })]. *)
Lemma driver_step_order_witness :
  let w : World.t float :=
    result (fired (count 1) (mounted false GLNull true))
      (mounted false GLNull true) in
  pool (exec (animate (MATH := taylor_math)) w)
  = survivors (Canvas.mk 0 (lit 1920) (lit 1080)) (pool w).
Proof.
  intro w.
  destruct (@driver_step_order float binary64 taylor_math w
              (Canvas.mk 0 (lit 1920) (lit 1080)))
    as (Hp & _).
  - reflexivity.
  - reflexivity.
  - exact Hp.
Defined.

(** [driver_draws_the_pool] for the first pass after a call of
    [fire({ particleCount: 1 })], on binary64 numbers. *)
Lemma driver_draws_the_pool_witness :
  let w : World.t float :=
    result (fired (count 1) (mounted false GLNull true))
      (mounted false GLNull true) in
  Browser.painted (World.page (exec (animate (MATH := taylor_math)) w))
  = map (sprite (MATH := taylor_math))
      (pool (exec (animate (MATH := taylor_math)) w)).
Proof.
  intro w.
  destruct (@driver_draws_the_pool float binary64 taylor_math w
              (Canvas.mk 0 (lit 1920) (lit 1080)))
    as (Hd & _).
  - reflexivity.
  - reflexivity.
  - exact Hd.
Defined.

(** [stale_callback_starts_second_driver] for two calls of
    [fire({ particleCount: 1 })] through the callback of the first render:
    handles 1 and 2 are requested, and after the next frame handles 3 and
    4. *)
Lemma stale_callback_starts_second_driver_witness :
  let w : World.t float := mounted false GLNull true in
  let w1 := result (fired (count 1) w) w in
  let w2 := result (fired (count 1) w1) w1 in
  pending w2 = [1%nat; 2%nat] /\
  pool (exec (run_frame (MATH := taylor_math)) w2)
  = survivors (Canvas.mk 0 (lit 1920) (lit 1080))
      (survivors (Canvas.mk 0 (lit 1920) (lit 1080)) (pool w2)).
Proof.
  intros w w1 w2.
  destruct (@stale_callback_starts_second_driver float binary64 taylor_math
              200%nat (count 1) (count 1) w w1 w2
              (Canvas.mk 0 (lit 1920) (lit 1080)))
    as (Hq & Hp & _).
  - reflexivity.
  - reflexivity.
  - reflexivity.
  - reflexivity.
  - vm_compute. reflexivity.
  - vm_compute. reflexivity.
  - split; [exact Hq | exact Hp].
Defined.

(** [canvas_not_restored_after_cleanup] for a mounted hook: after cleanup
    and a second mount effect the document holds no canvas. *)
Lemma canvas_not_restored_after_cleanup_witness :
  let w : World.t float := mounted false GLNull true in
  let w' := exec mount_effect (exec cleanup w) in
  Hook.canvasRef (World.refs w') = Some (Canvas.mk 0 (lit 1920) (lit 1080)) /\
  existsb (Nat.eqb 0) (Browser.body (World.page w')) = false /\
  emits w' = emits w.
Proof.
  intro w.
  apply (@canvas_not_restored_after_cleanup float w
           (Canvas.mk 0 (lit 1920) (lit 1080))).
  reflexivity.
Defined.

(** [cleanup_cancels_the_driver] for a hook that is unmounted while its
    burst is running. *)
Lemma cleanup_cancels_the_driver_witness :
  let w : World.t float :=
    result (fired (count 1) (mounted false GLNull true))
      (mounted false GLNull true) in
  pending (exec cleanup w) = [] /\
  World.refs (exec cleanup w) = World.refs w.
Proof.
  intro w.
  apply (@cleanup_cancels_the_driver float binary64 taylor_math w).
  - apply (@lifecycle_fire float binary64 taylor_math
             (mounted false GLNull true) w 200%nat (count 1)).
    + apply (@lifecycle_mount float binary64 taylor_math
               (desktop false GLNull true)); reflexivity.
    + vm_compute. reflexivity.
  - intros handle Hin.
    assert (E : pending w = [1%nat]) by (vm_compute; reflexivity).
    rewrite E in Hin. destruct Hin as [<- | []]. discriminate.
Defined.

(** [fire_reads_only_the_length_of_shapes] for
    [{ shapes: ['triangle'] }] and [{ shapes: ['circle'] }]. *)
Lemma fire_reads_only_the_length_of_shapes_witness :
  let w : World.t float := mounted false GLNull true in
  fire (MATH := taylor_math) false 200
    (with_shapes (Some [triangle]) (count 3)) w
  = fire (MATH := taylor_math) false 200
      (with_shapes (Some [circle]) (count 3)) w.
Proof.
  intro w.
  destruct (@fire_reads_only_the_length_of_shapes float binary64 taylor_math
              false 200%nat (count 3) [triangle] [circle] None w)
    as (Hs & _).
  - reflexivity.
  - exact Hs.
Defined.

(** [fire_rounds_the_count_up] for [fire({ particleCount: 2.5 })]: three
    particles. *)
Lemma fire_rounds_the_count_up_witness :
  let w : World.t Q := mounted false GLNull true in
  exists w' batch,
    fired (count 2.5) w = Some w' /\
    pool w' = pool w ++ batch /\
    List.length batch = 3%nat.
Proof.
  intro w.
  destruct (@fire_rounds_the_count_up taylor_math false 200%nat
              (count 2.5) w (Canvas.mk 0 (lit 1920) (lit 1080)))
    as (w' & batch & Hf & Hp & Hl & _).
  - reflexivity.
  - reflexivity.
  - vm_compute. lia.
  - exists w', batch. split; [exact Hf|]. split; [exact Hp | exact Hl].
Defined.

(** [new_particles_are_in_range] for a call with the default options. *)
Lemma new_particles_are_in_range_witness :
  let w : World.t Q := mounted false GLNull true in
  let w' := result (fired (count 2) w) w in
  exists batch,
    pool w' = pool w ++ batch /\
    Forall
      (fun p =>
         (0.75 <= Particle.scale p)%Q /\ (Particle.scale p <= 1.25)%Q /\
         (0 <= Particle.hue p)%Q /\ (Particle.hue p < 360)%Q)
      batch.
Proof.
  intros w w'.
  destruct (@new_particles_are_in_range taylor_math false 200%nat
              (count 2) w w' (Canvas.mk 0 (lit 1920) (lit 1080)))
    as (batch & Hp & HF).
  - intro n. destruct n as [|[|n]]; split; vm_compute;
      (reflexivity || discriminate).
  - reflexivity.
  - reflexivity.
  - vm_compute. reflexivity.
  - exists batch. split; [exact Hp|].
    eapply Forall_impl; [|exact HF].
    intros p (H1 & H2 & H3 & H4 & _). auto.
Defined.

(** The ranges on binary64 numbers, at the largest draw [1 - 2^-53]: the
    scale is rounded up to 1.25, the hue stays below 360 and the shape is
    the last index, 2. *)
Example largest_draw_binary64 :
  let w : World.t float := exec mount_effect (first_render lucky_desktop) in
  exists p : Particle.t float,
    option_map (@pool float) (fired (count 1) w) = Some [p] /\
    nequal (Particle.scale p) (lit 1.25) = true /\
    nlt (Particle.hue p) (lit 360) = true /\
    nequal (Particle.shape p) (lit 2) = true.
Proof.
  cbv zeta. eexists. split; [vm_compute; reflexivity|].
  split; [vm_compute; reflexivity|].
  split; vm_compute; reflexivity.
Qed.

(** [hue_stays_in_range] for a particle that starts with hue 359, after
    one update (hue 1). *)
Lemma hue_stays_in_range_witness :
  let p : Particle.t Q :=
    Particle.mk 0 0 0 0 0 0 1 0 359 100 60 1 0 240 in
  (0 <= Particle.hue (ticks 1 p))%Q /\ (Particle.hue (ticks 1 p) < 360)%Q.
Proof.
  intro p. apply (@hue_stays_in_range p 1).
  - vm_compute. discriminate.
  - vm_compute. reflexivity.
Defined.

(** [click_bursts_from_the_button] on binary64 numbers, for a button of
    40 x 40 px at (11, 200): the particle starts at
    [1920 * (31 / 1920)], which is a little more than the 31 of the
    button's centre. *)
Lemma click_bursts_from_the_button_witness :
  let w : World.t float := mounted false GLNull true in
  let rect : DOMRect.t float :=
    DOMRect.mk (lit 11) (lit 200) (lit 40) (lit 40) in
  let w' :=
    result
      (handleClick (MATH := taylor_math) rect (Some (count 1)) None
         false 200 w) w in
  (exists batch,
      pool w' = pool w ++ batch /\
      Forall
        (fun p =>
           Particle.x p
           = nmul (lit 1920)
               (ndiv (nadd (lit 11) (ndiv (lit 40) (lit 2))) (lit 1920)))
        batch) /\
  nlt (lit 31)
    (nmul (lit 1920)
       (ndiv (nadd (lit 11) (ndiv (lit 40) (lit 2))) (lit 1920)))
  = true.
Proof.
  intros w rect w'. split; [|vm_compute; reflexivity].
  destruct (@click_bursts_from_the_button float binary64 taylor_math rect
              (Some (count 1)) false 200%nat w w')
    as (Hb & _).
  - vm_compute. reflexivity.
  - destruct (Hb (Canvas.mk 0 (lit 1920) (lit 1080)) eq_refl eq_refl)
      as (batch & Hp & HF).
    exists batch. split; [exact Hp|].
    eapply Forall_impl; [|exact HF]. intros p (Hx & _). exact Hx.
Defined.

(** [one_update_per_frame] for two frames after a call of
    [fire({ particleCount: 1 })], on binary64 numbers. *)
Lemma one_update_per_frame_witness :
  let w : World.t float :=
    result (fired (count 1) (mounted false GLNull true))
      (mounted false GLNull true) in
  pool (frames (MATH := taylor_math) 2 w)
  = passes 2 (Canvas.mk 0 (lit 1920) (lit 1080)) (pool w).
Proof.
  intro w.
  destruct (@one_update_per_frame float binary64 taylor_math 2%nat w
              (Canvas.mk 0 (lit 1920) (lit 1080)))
    as (Hp & _).
  - apply (@lifecycle_fire float binary64 taylor_math
             (mounted false GLNull true) w 200%nat (count 1)).
    + apply (@lifecycle_mount float binary64 taylor_math
               (desktop false GLNull true)); reflexivity.
    + vm_compute. reflexivity.
  - reflexivity.
  - exact Hp.
Defined.

(** [confetti_fires_at_every_flip] for [<Confetti trigger />] with the
    default options: 150 particles at the first commit, 300 after the
    second. *)
Lemma confetti_fires_at_every_flip_witness :
  exists (w1 : World.t Q) d1 w2 d2,
    Confetti_mount (MATH := taylor_math) true None 200
      (desktop false GLNull true) = Some (w1, d1) /\
    Confetti_update (MATH := taylor_math) d1 true None false 200 w1
    = Some (w2, d2) /\
    List.length (pool w1) = 150%nat /\
    List.length (pool w2) = 300%nat.
Proof.
  destruct (@confetti_fires_at_every_flip taylor_math None 200%nat 150%nat
              (desktop false GLNull true))
    as ((w1 & d1 & w2 & d2 & H1 & H2 & L1 & L2 & _) & _).
  - reflexivity.
  - lia.
  - reflexivity.
  - exists w1, d1, w2, d2.
    split; [exact H1|]. split; [exact H2|]. split; [exact L1 | exact L2].
Defined.
